(** * scrapemonster: a shallow embedding of [src/scrapemonster/crawlers.py]

    The crawler harvests a product catalogue through a browser session
    (Playwright) under a task substrate (Prefect).  This development embeds
    the functions of [crawlers.py] and states the properties of its
    specification over them.

    Conventions.
    - A Python [str] is a sequence of code points.  The development covers the
      code points below 256 (Latin-1), carried by [ascii]; the character
      classes of the Python runtime ([str.isspace], [str.isdigit], [int], the
      [re] classes [\s] and [\d]) are written out for that range.
    - A Python exception is a value of [exn]; code that may raise returns a
      [result].  Code that talks to the browser runs in the monad [M], which
      threads the observable world (the site and the trace of browser events).
    - Browser primitives, the float parser, the hash function of the cache and
      the growth behaviour of a listing page are external: they are parameters
      of the definitions that use them. *)

From Stdlib Require Import ZArith NArith Lia List Ascii String Bool Permutation.
From stdpp Require Import base option list gmap strings.

Local Open Scope Z_scope.

(** ** Exceptions and results *)

Inductive exn : Type :=
  | TimeoutError      (* playwright.async_api.TimeoutError *)
  | ValueError
  | TypeError
  | IndexError
  | PlaywrightError.  (* any other failure of a browser primitive *)

Inductive result (A : Type) : Type :=
  | Ok (a : A)
  | Raise (e : exn).
Arguments Ok {A} a.
Arguments Raise {A} e.

#[global] Instance exn_eq_dec : EqDecision exn.
Proof. solve_decision. Defined.

#[global] Instance result_ret : MRet result := fun A a => Ok a.
#[global] Instance result_bind : MBind result := fun A B f m =>
  match m with
  | Ok a => f a
  | Raise e => Raise e
  end.

(** A list comprehension whose element expression may raise: the first
    exception, in iteration order, ends it. *)
Fixpoint result_mapM {A B : Type} (f : A -> result B) (l : list A) : result (list B) :=
  match l with
  | [] => Ok []
  | x :: l' => y ← f x; ys ← result_mapM f l'; mret (y :: ys)
  end.

(** ** The Python string runtime, on the code points below 256 *)

Module Py.

Abbreviation str := (list ascii).

(** [ord(c)] *)
Definition ord (c : ascii) : N := N_of_ascii c.

Definition between (lo hi n : N) : bool := ((lo <=? n) && (n <=? hi))%N.

(** [str.isspace] on one character, which is also the class [\s] of [re]
    on [str] patterns: TAB..CR, FS..US, SPACE, NEL and NBSP. *)
Definition isspace (c : ascii) : bool :=
  let n := ord c in
  between 9 13 n || between 28 32 n || (n =? 133)%N || (n =? 160)%N.

(** The decimal digits [0-9]: [str.isdecimal], the class [\d] of [re], and
    the characters [int] accepts. *)
Definition isdecimal (c : ascii) : bool := between 48 57 (ord c).

(** [str.isdigit] on one character: the decimal digits and the superscript
    digits U+00B2, U+00B3 and U+00B9 (Numeric_Type=Digit). *)
Definition isdigit (c : ascii) : bool :=
  let n := ord c in
  between 48 57 n || (n =? 178)%N || (n =? 179)%N || (n =? 185)%N.

(** The class [[a-zA-Z]] *)
Definition is_letter (c : ascii) : bool :=
  let n := ord c in between 65 90 n || between 97 122 n.

(** The class [[a-zA-Z0-9]] *)
Definition is_alnum (c : ascii) : bool := is_letter c || isdecimal c.

(** [s.isdigit()]: every character is a digit and there is at least one. *)
Definition str_isdigit (s : str) : bool :=
  negb (bool_decide (s = [])) && forallb isdigit s.

(** [int(d)] for a one-character string [d]. *)
Definition int_of_char (c : ascii) : result Z :=
  if isdecimal c then Ok (Z.of_N (ord c) - 48) else Raise ValueError.

(** [l[i]] *)
Definition index {A : Type} (l : list A) (i : nat) : result A :=
  match l !! i with
  | Some x => Ok x
  | None => Raise IndexError
  end.

(** [sum(...)] over integers *)
Definition sum (l : list Z) : Z := fold_left Z.add l 0.

(** [s.strip()] *)
Fixpoint lstrip (s : str) : str :=
  match s with
  | c :: s' => if isspace c then lstrip s' else s
  | [] => []
  end.
Definition rstrip (s : str) : str := rev (lstrip (rev s)).
Definition strip (s : str) : str := rstrip (lstrip s).

(** [sep.join(parts)] *)
Fixpoint join (sep : str) (parts : list str) : str :=
  match parts with
  | [] => []
  | [p] => p
  | p :: ps => p ++ sep ++ join sep ps
  end.

(** [toolz.last(seq)] *)
Definition last {A : Type} (l : list A) : result A :=
  match rev l with
  | x :: _ => Ok x
  | [] => Raise IndexError
  end.

(** [re.split(r"\s+", s)]: the pieces of [s] between its maximal runs of
    whitespace; a run at either end leaves an empty piece there. *)
Fixpoint re_split_ws (s : str) : list str :=
  match s with
  | [] => [[]]
  | c :: r =>
      if isspace c then
        match r with
        | c' :: _ => if isspace c' then re_split_ws r else [] :: re_split_ws r
        | [] => [] :: re_split_ws r
        end
      else
        match re_split_ws r with
        | t :: ts => (c :: t) :: ts
        | [] => [[c]]
        end
  end.

(** [re.sub(r"[^a-zA-Z0-9]", "", s)] *)
Definition re_sub_non_alnum (s : str) : str := List.filter is_alnum s.

Definition is_newline (c : ascii) : bool := (ord c =? 10)%N.
Definition is_char (x c : ascii) : bool := (ord c =? ord x)%N.

(** [re.search(r" \d+[a-zA-Z]{1,2}\.$", s)], as a truth value.  The
    matcher follows the pattern from right to left of its text: [at_dollar]
    is [$] (the end, or just before a newline that ends the string),
    [m_dot_end] is [\.$], [m_unit] is [[a-zA-Z]{1,2}\.$] (two letters are
    tried before one), [m_digits] is [\d+[a-zA-Z]{1,2}\.$], [m_here] is the
    whole pattern at the current position and the search tries every
    position from the left. *)
Definition at_dollar (s : str) : bool :=
  match s with
  | [] => true
  | [c] => is_newline c
  | _ => false
  end.
Definition m_dot_end (s : str) : bool :=
  match s with
  | c :: r => is_char "." c && at_dollar r
  | [] => false
  end.
Definition m_unit (s : str) : bool :=
  match s with
  | a :: r =>
      is_letter a &&
      (match r with
       | b :: r' => is_letter b && m_dot_end r'
       | [] => false
       end || m_dot_end r)
  | [] => false
  end.
Fixpoint m_digits (s : str) : bool :=
  match s with
  | d :: r => isdecimal d && (m_digits r || m_unit r)
  | [] => false
  end.
Definition m_here (s : str) : bool :=
  match s with
  | c :: r => is_char " " c && m_digits r
  | [] => false
  end.
Fixpoint re_search_quantity (s : str) : bool :=
  m_here s ||
  match s with
  | _ :: r => re_search_quantity r
  | [] => false
  end.

(** [re.sub(r"^\(.+\)\s*", "", s)].  Without MULTILINE [^] matches at
    the start only, so at most one match is replaced.  [m_dotstar_close] is
    [.*\)] with the greedy choice of [re]: [.] takes every character but a
    newline, and the match backs off to the last [)] it passed; the result
    is the text after that [)].  The trailing [\s*] then takes all the
    whitespace that follows. *)
Fixpoint m_dotstar_close (r : str) : option str :=
  match r with
  | [] => None
  | c :: r' =>
      if is_newline c then None
      else match m_dotstar_close r' with
           | Some rest => Some rest
           | None => if is_char ")" c then Some r' else None
           end
  end.
Definition re_sub_leading_paren (s : str) : str :=
  match s with
  | c0 :: c1 :: r =>
      if is_char "(" c0 && negb (is_newline c1) then
        match m_dotstar_close r with
        | Some rest => lstrip rest
        | None => s
        end
      else s
  | _ => s
  end.

(** [re.sub(r"[ \t]+", " ", s)]: each maximal run of spaces and tabs
    becomes one space. *)
Definition is_blank (c : ascii) : bool := is_char " " c || (ord c =? 9)%N.
Fixpoint re_sub_blanks (s : str) : str :=
  match s with
  | [] => []
  | c :: r =>
      if is_blank c then
        match r with
        | c' :: _ => if is_blank c' then re_sub_blanks r else " "%char :: re_sub_blanks r
        | [] => [" "%char]
        end
      else c :: re_sub_blanks r
  end.

End Py.
Import Py.

(** String literals of the examples. *)
Definition s_ (s : string) : str := list_ascii_of_string s.

(** ** [is_valid_ean13] *)

(** [3 if i % 2 else 1] *)
Definition ean13_weight (i : nat) : Z := if (i mod 2 =? 0)%nat then 1 else 3.

Definition is_valid_ean13 (ean : str) : result bool :=
  if negb (str_isdigit ean) || negb (length ean =? 13)%nat then Ok false
  else
    digits ← result_mapM int_of_char ean;
    terms ← result_mapM (fun i => d ← index digits i; mret (d * ean13_weight i)) (seq 0 12);
    let checksum := (10 - (Py.sum terms mod 10)) mod 10 in
    d12 ← index digits 12;
    mret (checksum =? d12).

(** ** Values, records and the float parser *)

(** [float(s)]: the parser of the Python runtime is external.  [float_of_str]
    gives the parsed number, or [None] where [float] raises [ValueError]. *)
Class PyFloat := {
  float : Type;
  float_of_str : str -> option float;
}.

Section Values.
Context `{PyFloat}.

(** The JSON-like values a product record holds. *)
#[warnings="-register-all"]
Inductive pyval : Type :=
  | VNone
  | VStr (s : str)
  | VFloat (x : float)
  | VList (l : list pyval).

(** A [dict] literal: its items in insertion order. *)
Definition record : Type := list (string * pyval).

Definition keys (d : record) : list string := map fst d.

(** [d.get(k)] *)
Fixpoint get (d : record) (k : string) : option pyval :=
  match d with
  | [] => None
  | (k', v) :: d' => if String.eqb k k' then Some v else get d' k
  end.

Definition of_opt_str (o : option str) : pyval :=
  match o with
  | Some s => VStr s
  | None => VNone
  end.

(** [float(price)] *)
Definition py_float (s : str) : result float :=
  match float_of_str s with
  | Some x => Ok x
  | None => Raise ValueError
  end.
End Values.

(** ** The browser and the world *)

(** What a product page answers to the locators of [extract_product_info].
    Each field is the outcome of one query: its value, or the exception the
    query raises. *)
Record ProductPage := {
  goto_outcome : result unit;                 (* page.goto(url) *)
  name_text : result str;                     (* .product-Details-name .product-tile__name *)
  image_srcs : result (list (option str));    (* src of .img-zoom-container img *)
  sku_text : result str;                      (* .product-Details-sku *)
  details_text : result str;                  (* .accordion-body, timeout=100 *)
  price_text : result str;                    (* .product-Details-current-price *)
  label_alts : result (list (option str));    (* alt of the description images *)
}.

Abbreviation Browser := nat.
Abbreviation Page := nat.

Section World.
Context `{PyFloat}.

Inductive event : Type :=
  | EvRateLimit (name : string)
  | EvTaskRun (url : str)
  | EvLaunch (b : Browser)
  | EvNewPage (b : Browser) (p : Page)
  | EvGoto (p : Page) (url : str)
  | EvClosePage (p : Page)
  | EvCloseBrowser (b : Browser)
  | EvWrite (filename : string) (lines : list record).

(** The world: what the site serves, and the events so far, newest first. *)
Record World := {
  site : str -> ProductPage;
  trace : list event;
}.

Definition M (A : Type) : Type := World -> result A * World.

#[global] Instance M_ret : MRet M := fun A a w => (Ok a, w).
#[global] Instance M_bind : MBind M := fun A B f m w =>
  match m w with
  | (Ok a, w') => f a w'
  | (Raise e, w') => (Raise e, w')
  end.

Definition raise {A : Type} (e : exn) : M A := fun w => (Raise e, w).
Definition lift {A : Type} (r : result A) : M A := fun w => (r, w).
Definition emit (e : event) : M unit :=
  fun w => (Ok tt, {| site := site w; trace := e :: trace w |}).

(** [try: m  except TimeoutError: h] *)
Definition try_except_timeout {A : Type} (m h : M A) : M A := fun w =>
  match m w with
  | (Raise TimeoutError, w') => h w'
  | r => r
  end.

Definition is_launch (e : event) : bool :=
  match e with EvLaunch _ => true | _ => false end.
Definition is_new_page (e : event) : bool :=
  match e with EvNewPage _ _ => true | _ => false end.
Definition closes (b : Browser) (e : event) : bool :=
  match e with EvCloseBrowser b' => (b' =? b)%nat | _ => false end.

Definition browser_closed (b : Browser) (tr : list event) : bool := existsb (closes b) tr.

(** The URL a page shows: that of its latest navigation. *)
Fixpoint page_url (p : Page) (tr : list event) : option str :=
  match tr with
  | [] => None
  | EvGoto p' url :: tr' => if (p' =? p)%nat then Some url else page_url p tr'
  | _ :: tr' => page_url p tr'
  end.

(** [await rate_limit(name)] *)
Definition rate_limit (name : string) : M unit := emit (EvRateLimit name).

(** [p = await async_playwright().start(); await p.chromium.launch()] *)
Definition launch : M Browser := fun w =>
  let b := length (List.filter is_launch (trace w)) in
  (Ok b, {| site := site w; trace := EvLaunch b :: trace w |}).

(** [await browser.new_page()]: a closed browser opens no page. *)
Definition new_page (b : Browser) : M Page := fun w =>
  if browser_closed b (trace w) then (Raise PlaywrightError, w)
  else
    let p := length (List.filter is_new_page (trace w)) in
    (Ok p, {| site := site w; trace := EvNewPage b p :: trace w |}).

(** [await page.goto(url)] *)
Definition goto (p : Page) (url : str) : M unit := fun w =>
  match goto_outcome (site w url) with
  | Ok _ => (Ok tt, {| site := site w; trace := EvGoto p url :: trace w |})
  | Raise e => (Raise e, w)
  end.

(** A query of the page through a locator; a page that was never
    navigated has nothing to locate. *)
Definition query {A : Type} (f : ProductPage -> result A) (p : Page) : M A := fun w =>
  match page_url p (trace w) with
  | Some url => (f (site w url), w)
  | None => (Raise TimeoutError, w)
  end.

(** [await page.close()] and [await browser.close()] *)
Definition close_page (p : Page) : M unit := emit (EvClosePage p).
Definition close_browser_ (b : Browser) : M unit := emit (EvCloseBrowser b).

(** ** [extract_product_info] *)

(** Lines 127-141: the quantity suffix of the product name. *)
Definition split_name_quantity (name : str) : result (str * option str) :=
  if re_search_quantity name then
    q ← Py.last (re_split_ws name);
    let quantity := re_sub_non_alnum q in
    let name' := re_sub_leading_paren (join [" "%char] (removelast (re_split_ws name))) in
    mret (name', Some quantity)
  else mret (name, None).

(** Lines 143-150: the barcode out of the sku text. *)
Definition barcode_of_sku (sku : str) : result (option str) :=
  tok ← Py.last (re_split_ws (strip sku));
  valid ← is_valid_ean13 tok;
  mret (if valid : bool then Some (s_ "EAN-13 " ++ tok) else None).

(** Lines 152-162: the details text, with its soft failure. *)
Definition extract_details (p : Page) : M (option str) :=
  try_except_timeout
    (details ← query details_text p;
     mret (Some (strip (re_sub_blanks details))))
    (mret None).

(** Lines 173-178: [pipe(labels, map(str.strip), filter(bool), list)];
    [str.strip] of an absent attribute raises [TypeError]. *)
Definition clean_labels (alts : list (option str)) : result (list str) :=
  stripped ← result_mapM (fun a => match a with
                                  | Some s => Ok (strip s)
                                  | None => Raise TypeError
                                  end) alts;
  mret (List.filter (fun s => negb (bool_decide (s = []))) stripped).

Definition extract_product_info (on_url : str) (browser : option Browser) : M record :=
  rate_limit "tops_website";;
  '(browser, close_browser) ←
    match browser return M (Browser * bool) with
    | None => b ← launch; mret (b, true)
    | Some b => mret (b, false)
    end;
  page ← new_page browser;
  goto page on_url;;
  name ← query name_text page;
  images ← query image_srcs page;
  '(name, quantity) ← lift (split_name_quantity name);
  sku ← query sku_text page;
  barcode ← lift (barcode_of_sku sku);
  details ← extract_details page;
  price ← query price_text page;
  price ← lift (py_float price);
  labels ← query label_alts page;
  labels ← lift (clean_labels labels);
  let data : record :=
    [ ("name"%string, VStr name);
      ("quantity"%string, of_opt_str quantity);
      ("price"%string, VFloat price);
      ("images"%string, VList (map of_opt_str images));
      ("barcode"%string, of_opt_str barcode);
      ("labels"%string, VList (map VStr labels));
      ("store_url"%string, VStr on_url) ] in
  close_page page;;
  (if close_browser : bool then close_browser_ browser else mret tt);;
  mret data.
End World.

(** ** The task substrate: retries, fan-out and the sink *)

Section Tasks.
Context `{PyFloat}.

(** [@task(retries=n)]: a run of the task body that raises is started
    again, at most [n] more times; the exception of the last run is the
    task's failure.  Every run is logged. *)
Fixpoint task_run {A : Type} (retries : nat) (url : str) (body : M A) : M A := fun w =>
  match body {| site := site w; trace := EvTaskRun url :: trace w |} with
  | (Ok a, w') => (Ok a, w')
  | (Raise e, w') =>
      match retries with
      | O => (Raise e, w')
      | S n => task_run n url body w'
      end
  end.

(** [extract_product_info] as decorated: [retries=1], no session passed. *)
Definition extract_product_info_task (url : str) : M record :=
  task_run 1 url (extract_product_info url None).

(** [task.map(inputs)]: every input is submitted and run; a failed run
    fails its own future only. *)
Fixpoint task_map {X A : Type} (t : X -> M A) (inputs : list X) : M (list (result A)) :=
  match inputs with
  | [] => mret []
  | x :: inputs' => fun w =>
      let '(r, w') := t x w in
      match task_map t inputs' w' with
      | (Ok rs, w'') => (Ok (r :: rs), w'')
      | (Raise e, w'') => (Raise e, w'')
      end
  end.

(** [futures.result()]: the values in the order of the futures; the first
    failed future raises. *)
Definition futures_result {A : Type} (rs : list (result A)) : result (list A) :=
  result_mapM (fun r => r) rs.

(** [write_results]: one line per record. *)
Definition write_results (filename : string) (objs : list record) : M unit :=
  emit (EvWrite filename objs).

Definition get_products (product_links : list str) (output_file : string) : M unit :=
  rs ← task_map extract_product_info_task product_links;
  products ← lift (futures_result rs);
  write_results output_file products.

(** The records written to the sink so far. *)
Definition written (tr : list event) : list record :=
  flat_map (fun e => match e with EvWrite _ ls => ls | _ => [] end) tr.

Definition task_runs (url : str) (tr : list event) : nat :=
  length (List.filter (fun e => match e with
                                | EvTaskRun u => bool_decide (u = url)
                                | _ => false
                                end) tr).
End Tasks.

(** ** [find_product_pages]: the stabilization loop *)

(** A listing page that grows when scrolled.  The page is whatever state the
    site keeps; the browser primitives the loop uses act on it, and are taken
    to succeed.  The task holds its session in an [async with] block; the
    model keeps the page of that session only. *)
Class ListingSite := {
  LPage : Type;
  open_listing : str -> LPage;               (* new_page(); goto(on_url) *)
  mouse_wheel : LPage -> LPage;              (* page.mouse.wheel(0, 300) *)
  wait_for_timeout : Z -> LPage -> LPage;    (* page.wait_for_timeout(ms) *)
  count_products : LPage -> nat;             (* locator(...).count() *)
  product_hrefs : LPage -> list (option str); (* href of each product located *)
}.

(** [deque([], maxlen)] and its [append] and [count] *)
Definition deque_append {A : Type} (maxlen : nat) (d : list A) (x : A) : list A :=
  let d' := d ++ [x] in drop (length d' - maxlen) d'.
Definition deque_count (d : list nat) (x : nat) : nat := count_occ Nat.eq_dec d x.

Section Stabilization.
Context `{ListingSite}.

Definition wait_time : Z := 500.
Definition max_wait_time : Z := 300000.

Record scroll_state := {
  page : LPage;
  product_counts : list nat;
  total_wait_time : Z;
  last_product_count : nat;
}.

(** The loop condition *)
Definition keep_scrolling (s : scroll_state) : bool :=
  (deque_count (product_counts s) (last_product_count s) <? 3)%nat
  && (total_wait_time s <? max_wait_time).

(** One pass of [for _ in range(3)] *)
Definition scroll_step (s : scroll_state) : scroll_state :=
  {| page := wait_for_timeout wait_time (mouse_wheel (page s));
     product_counts := product_counts s;
     total_wait_time := total_wait_time s + wait_time;
     last_product_count := last_product_count s |}.

(** The loop body *)
Definition scroll_round (s : scroll_state) : scroll_state :=
  let s3 := scroll_step (scroll_step (scroll_step s)) in
  let p := wait_for_timeout 2000 (page s3) in
  let n := count_products p in
  {| page := p;
     product_counts := deque_append 3 (product_counts s3) n;
     total_wait_time := total_wait_time s3 + wait_time;
     last_product_count := n |}.

(** The [while] loop, with fuel for its iterations. *)
Fixpoint scroll_loop (fuel : nat) (s : scroll_state) : option scroll_state :=
  if keep_scrolling s then
    match fuel with
    | O => None
    | S fuel' => scroll_loop fuel' (scroll_round s)
    end
  else Some s.

Definition initial_state (on_url : str) : scroll_state :=
  let p := wait_for_timeout 3000 (open_listing on_url) in
  {| page := p;
     product_counts := [];
     total_wait_time := 0;
     last_product_count := count_products p |}.

Definition find_product_pages (fuel : nat) (on_url : str) : option (list (option str)) :=
  s ← scroll_loop fuel (initial_state on_url);
  mret (product_hrefs (page s)).

(** The state after [n] rounds. *)
Definition after_rounds (n : nat) (s : scroll_state) : scroll_state :=
  Nat.iter n scroll_round s.
End Stabilization.

(** ** [main]: fan-out and flattening *)

(** [list(chain.from_iterable(xss))]: the elements of each inner list, list
    after list. *)
Fixpoint chain_from_iterable {A : Type} (xss : list (list A)) : list A :=
  match xss with
  | [] => []
  | xs :: rest =>
      (fix each (ys : list A) : list A :=
         match ys with
         | [] => chain_from_iterable rest
         | y :: ys' => y :: each ys'
         end) xs
  end.

Section FanOut.
Context {X Y : Type}.

(** [task.map(inputs)] makes one future per input, in input order; the runs
    complete in any order, each filling its own future. *)
Definition complete (f : X -> Y) (inputs : list X) (done : gmap nat Y) (i : nat) : gmap nat Y :=
  match inputs !! i with
  | Some x => <[i := f x]> done
  | None => done
  end.

Definition run_schedule (f : X -> Y) (inputs : list X) (sched : list nat) : gmap nat Y :=
  foldl (complete f inputs) ∅ sched.

(** [futures.result()]: the result of each future, in the order of the
    futures. *)
Definition collect (n : nat) (done : gmap nat Y) : option (list Y) :=
  mapM (fun i => done !! i) (seq 0 n).

Definition map_result (f : X -> Y) (inputs : list X) (sched : list nat) : option (list Y) :=
  collect (length inputs) (run_schedule f inputs sched).
End FanOut.

(** Lines 238-243 of [main]: two fan-out stages, flattened in between. *)
Definition crawl_links (find_category find_product : str -> list str)
    (nav_links : list str) (sched1 sched2 : list nat) : option (list str) :=
  category_pages ← map_result find_category nav_links sched1;
  let product_listing_pages := chain_from_iterable category_pages in
  products_pages ← map_result find_product product_listing_pages sched2;
  mret (chain_from_iterable products_pages).

(** ** The cache policy of [extract_product_info] *)

Module CachePolicy.

(** The argument values of a task call, as the cache sees them. *)
Inductive arg : Type :=
  | ArgStr (s : str)
  | ArgNone
  | ArgBrowser (b : Browser).

(** The hash functions of the cache are external. *)
Class Hasher := {
  key : Type;
  hash_inputs : gmap string arg -> key;
  hash_source : str -> key;
  hash_keys : list key -> key;
}.

(** The key policies of [prefect.cache_policies] used here; a compound
    policy is the list of its members. *)
Inductive key_policy : Type :=
  | Inputs (exclude : list string)
  | TaskSource.

Definition policy : Type := list key_policy.

Definition is_inputs (p : key_policy) : bool :=
  match p with Inputs _ => true | TaskSource => false end.
Definition excludes_of (p : key_policy) : list string :=
  match p with Inputs ex => ex | TaskSource => [] end.

(** A compound keeps one [Inputs] member, which excludes what any of its
    [Inputs] members excluded. *)
Definition compound (ps : list key_policy) : policy :=
  let others := List.filter (fun p => negb (is_inputs p)) ps in
  if existsb is_inputs ps
  then others ++ [Inputs (flat_map excludes_of ps)]
  else others.

Definition INPUTS : policy := [Inputs []].
Definition TASK_SOURCE : policy := [TaskSource].

(** [p + q] *)
Definition add (p q : policy) : policy := compound (p ++ q).

(** [p - name]: no change for a policy that does not read the inputs. *)
Definition sub (p : policy) (name : string) : policy :=
  if existsb is_inputs p then compound (p ++ [Inputs [name]]) else p.

Section Keys.
Context `{Hasher}.

Definition member_key (source : str) (inputs : gmap string arg) (p : key_policy) : option key :=
  match p with
  | Inputs exclude =>
      if bool_decide (inputs = ∅) then None
      else Some (hash_inputs (filter (fun kv => kv.1 ∉ exclude) inputs))
  | TaskSource => Some (hash_source source)
  end.

Definition compute_key (p : policy) (source : str) (inputs : gmap string arg) : option key :=
  match omap (member_key source inputs) p with
  | [] => None
  | ks => Some (hash_keys ks)
  end.
End Keys.

(** [my_custom_policy = INPUTS + TASK_SOURCE - "browser"] *)
Definition my_custom_policy : policy := sub (add INPUTS TASK_SOURCE) "browser".

(** The inputs of a call [extract_product_info(on_url, browser)]. *)
Definition call_inputs (on_url : str) (browser : option Browser) : gmap string arg :=
  {[ "on_url"%string := ArgStr on_url;
     "browser"%string := match browser with
                         | Some b => ArgBrowser b
                         | None => ArgNone
                         end ]}.
End CachePolicy.

(** * The specification's notions

    Definitions that follow the words of the specification, against which
    the embedding above is compared. *)

(** The check digit in the words of the specification: the value of a decimal
    digit, the sum of the first twelve digits under the weights 1,3,1,3,...
    and [(10 - sum) mod 10]. *)
Definition digit_val (c : ascii) : Z := Z.of_N (ord c) - 48.

Definition ean13_weights : list Z := [1; 3; 1; 3; 1; 3; 1; 3; 1; 3; 1; 3].

Definition weighted_sum12 (s : str) : Z :=
  foldr Z.add 0 (zip_with Z.mul (map digit_val (take 12 s)) ean13_weights).

Definition check_digit_matches (s : str) : bool :=
  match s !! 12%nat with
  | Some c12 => digit_val c12 =? (10 - weighted_sum12 s) mod 10
  | None => false
  end.

Definition ean13_spec (s : str) : bool :=
  (length s =? 13)%nat && forallb isdecimal s && check_digit_matches s.

(** The superscript two, U+00B2. *)
Definition superscript_two : ascii := "178"%char.

(** A text without whitespace, and the last whitespace-delimited token of a
    text: its longest suffix without whitespace. *)
Definition no_space (s : str) : bool := forallb (fun c => negb (isspace c)) s.

Fixpoint tail_word (s : str) : str :=
  match s with
  | [] => []
  | c :: r => if no_space (c :: r) then c :: r else tail_word r
  end.

(** Words: no whitespace inside, none empty, at least one. *)
Definition clean_words (ws : list str) : Prop :=
  ws <> [] /\ Forall (fun w => w <> [] /\ no_space w = true) ws.

(** The quantity suffix: a number, then a unit of one or two letters. *)
Definition quantity_suffix (ds us : str) : Prop :=
  ds <> [] /\ Forall (fun c => isdecimal c = true) ds /\
  (length us = 1%nat \/ length us = 2%nat) /\ Forall (fun c => is_letter c = true) us.

Definition newline : ascii := "010"%char.

Definition line_end (nl : str) : Prop := nl = [] \/ nl = [newline].

(** The names the pattern of [extract_product_info] finds a quantity in: a
    space, the quantity suffix and a period, at the end of the text or before
    a newline that ends it. *)
Definition has_quantity_suffix (name : str) : Prop :=
  exists pre ds us nl,
    name = pre ++ " "%char :: ds ++ us ++ "."%char :: nl /\
    quantity_suffix ds us /\ line_end nl.

(** Trimmed: no whitespace at either end. *)
Definition starts_clean (s : str) : Prop :=
  match s with
  | c :: _ => isspace c = false
  | [] => True
  end.
Definition trimmed (s : str) : Prop := starts_clean s /\ starts_clean (rev s).

(** Whitespace-collapsed: no two whitespace characters in a row. *)
Fixpoint ws_collapsed (s : str) : bool :=
  match s with
  | c :: (c' :: _) as r => negb (isspace c && isspace c') && ws_collapsed r
  | _ => true
  end.

(** Blank-collapsed: no tab, and no two spaces in a row. *)
Fixpoint blank_collapsed (s : str) : bool :=
  match s with
  | [] => true
  | c :: r =>
      negb (is_char "009" c)
      && match r with
         | c' :: _ => negb (is_blank c && is_blank c')
         | [] => true
         end
      && blank_collapsed r
  end.

(** A float parser for the examples: it reads the plain decimal numerals, as
    [float] does, keeps them as written, and stands for no more of [float].
    The digits are told by their bits, 0011 0000 to 0011 1001. *)
Definition is_numeral_char (c : ascii) : bool :=
  match c with
  | Ascii b0 b1 b2 b3 true true false false => negb b3 || negb (b1 || b2)
  | _ => false
  end.
Definition demo_float_of_str (s : str) : option str :=
  match s with
  | [] => None
  | _ :: _ => if forallb is_numeral_char s then Some s else None
  end.
Definition demo_float : PyFloat := {| float := str; float_of_str := demo_float_of_str |}.

(** Pages and worlds for the examples. *)
Definition milk_page : ProductPage :=
  {| goto_outcome := Ok tt;
     name_text := Ok (s_ "Fresh Milk 1L.");
     image_srcs := Ok [Some (s_ "milk.jpg")];
     sku_text := Ok (s_ "SKU 4006381333931");
     details_text := Ok (s_ "  Pasteurised   whole milk ");
     price_text := Ok (s_ "45");
     label_alts := Ok [Some (s_ " Halal "); Some (s_ " ")] |}.

Definition with_price (r : result str) (pg : ProductPage) : ProductPage :=
  {| goto_outcome := goto_outcome pg; name_text := name_text pg;
     image_srcs := image_srcs pg; sku_text := sku_text pg;
     details_text := details_text pg; price_text := r;
     label_alts := label_alts pg |}.

Definition with_details (r : result str) (pg : ProductPage) : ProductPage :=
  {| goto_outcome := goto_outcome pg; name_text := name_text pg;
     image_srcs := image_srcs pg; sku_text := sku_text pg;
     details_text := r; price_text := price_text pg;
     label_alts := label_alts pg |}.

Definition with_sku (r : result str) (pg : ProductPage) : ProductPage :=
  {| goto_outcome := goto_outcome pg; name_text := name_text pg;
     image_srcs := image_srcs pg; sku_text := r;
     details_text := details_text pg; price_text := price_text pg;
     label_alts := label_alts pg |}.

(** The details content within its timeout: present, or absent. *)
Definition soft (r : result str) : Prop :=
  match r with
  | Ok _ | Raise TimeoutError => True
  | Raise _ => False
  end.

Section Views.
Context `{PyFloat}.

(** A site that serves one page at every URL, before any event. *)
Definition serving (pg : ProductPage) : World := {| site := fun _ => pg; trace := [] |}.

(** The world with the details content of every page replaced. *)
Definition set_details (r : result str) (w : World) : World :=
  {| site := fun u => with_details r (site w u); trace := trace w |}.

(** Events of a task body: no task run, nothing written. *)
Definition plain (e : event) : bool :=
  match e with
  | EvTaskRun _ | EvWrite _ _ => false
  | _ => true
  end.

Definition is_close_browser (e : event) : bool :=
  match e with EvCloseBrowser _ => true | _ => false end.

(** The world after a run on [url] that opened its own session, from
    [serving pg]. *)
Definition served (pg : ProductPage) (url : str) : World :=
  {| site := fun _ => pg;
     trace := [EvCloseBrowser 0; EvClosePage 0; EvGoto 0 url; EvNewPage 0 0;
               EvLaunch 0; EvRateLimit "tops_website"] |}.

(** A page whose price text [float] does not read. *)
Definition bad_price (w : World) (url : str) : Prop :=
  exists txt, price_text (site w url) = Ok txt /\ float_of_str txt = None.

(** The world when the substrate starts a run of the task body. *)
Definition started (url : str) (w : World) : World :=
  {| site := site w; trace := EvTaskRun url :: trace w |}.

(** *** One run of [extract_product_info], written out

    The same run as a function of what the page answers: the proofs go
    through [run_of], which [extract_product_info_run] shows equal to the
    embedded task. *)

(** The details step on the page: a timeout is caught, any other exception
    is not. *)
Definition details_of (pg : ProductPage) : result (option str) :=
  match details_text pg with
  | Ok d => Ok (Some (strip (re_sub_blanks d)))
  | Raise TimeoutError => Ok None
  | Raise e => Raise e
  end.

(** The queries and the record, from what the page answers. *)
Definition page_record (on_url : str) (pg : ProductPage) : result record :=
  name ← name_text pg;
  images ← image_srcs pg;
  nq ← split_name_quantity name;
  sku ← sku_text pg;
  barcode ← barcode_of_sku sku;
  _ ← details_of pg;
  price ← price_text pg;
  price ← py_float price;
  labels ← label_alts pg;
  labels ← clean_labels labels;
  mret [ ("name"%string, VStr nq.1);
         ("quantity"%string, of_opt_str nq.2);
         ("price"%string, VFloat price);
         ("images"%string, VList (map of_opt_str images));
         ("barcode"%string, of_opt_str barcode);
         ("labels"%string, VList (map VStr labels));
         ("store_url"%string, VStr on_url) ].

Definition with_trace (w : World) (tr : list event) : World :=
  {| site := site w; trace := tr |}.

(** The events of a run up to the page, and the session it uses. *)
Definition session_of (browser : option Browser) (tr : list event) : Browser * list event :=
  let tr1 := EvRateLimit "tops_website" :: tr in
  match browser with
  | None => let b := length (List.filter is_launch tr1) in (b, EvLaunch b :: tr1)
  | Some b => (b, tr1)
  end.

Definition closing (browser : option Browser) (b : Browser) (p : Page) : list event :=
  match browser with
  | None => [EvCloseBrowser b; EvClosePage p]
  | Some _ => [EvClosePage p]
  end.

Definition run_of (on_url : str) (browser : option Browser) (w : World) : result record * World :=
  let '(b, tr2) := session_of browser (trace w) in
  if browser_closed b tr2 then (Raise PlaywrightError, with_trace w tr2)
  else
    let p := length (List.filter is_new_page tr2) in
    let tr3 := EvNewPage b p :: tr2 in
    match goto_outcome (site w on_url) with
    | Raise e => (Raise e, with_trace w tr3)
    | Ok _ =>
        let tr4 := EvGoto p on_url :: tr3 in
        match page_record on_url (site w on_url) with
        | Raise e => (Raise e, with_trace w tr4)
        | Ok data => (Ok data, with_trace w (closing browser b p ++ tr4))
        end
    end.
End Views.

(** The record of [milk_page], read at [url] with [demo_float]. *)
Definition milk_record (url : str) : record (H := demo_float) :=
  [ ("name"%string, VStr (s_ "Fresh Milk"));
    ("quantity"%string, VStr (s_ "1L"));
    ("price"%string, VFloat (H := demo_float) (s_ "45"));
    ("images"%string, VList [VStr (s_ "milk.jpg")]);
    ("barcode"%string, VStr (s_ "EAN-13 4006381333931"));
    ("labels"%string, VList [VStr (s_ "Halal")]);
    ("store_url"%string, VStr url) ].

Section Plateau.
Context `{ListingSite}.

(** The plateau: the ring buffer holds three samples, all equal to the
    latest one. *)
Definition plateau (s : scroll_state) : Prop :=
  length (product_counts s) = 3%nat /\
  Forall (fun n => n = last_product_count s) (product_counts s).

(** The samples taken in the rounds 1..k from a state. *)
Definition samples (s0 : scroll_state) (k : nat) : list nat :=
  map (fun j => last_product_count (after_rounds j s0)) (seq 1 k).
End Plateau.

(** A listing that gains one product at every scroll and never settles. *)
Definition growing_site : ListingSite :=
  {| LPage := nat;
     open_listing _ := 0%nat;
     mouse_wheel p := S p;
     wait_for_timeout _ p := p;
     count_products p := p;
     product_hrefs p := repeat None p |}.

(** A listing that gains five products at every scroll, up to 42. *)
Definition settling_site : ListingSite :=
  {| LPage := nat;
     open_listing _ := 0%nat;
     mouse_wheel p := S p;
     wait_for_timeout _ p := p;
     count_products p := Nat.min 42 (5 * p);
     product_hrefs p := repeat None (Nat.min 42 (5 * p)) |}.

(** * More of [crawlers.py] *)

Section MoreEvents.
Context `{PyFloat}.

Definition is_close_page (e : event) : bool :=
  match e with EvClosePage _ => true | _ => false end.
Definition is_rate_limit (e : event) : bool :=
  match e with EvRateLimit _ => true | _ => false end.

(** The browsers launched, and the sessions closed, in a trace. *)
Definition launches (tr : list event) : nat := length (List.filter is_launch tr).
Definition closings (tr : list event) : nat := length (List.filter is_close_browser tr).

(** A trace in which only launched browsers were closed: the next browser
    to launch is open. *)
Definition wf_trace (tr : list event) : Prop :=
  forall b, browser_closed b tr = true -> (b < launches tr)%nat.

End MoreEvents.

(** Lines 248-260, [alt_main]: one seed, the first of its category pages, the
    first ten product links. *)
Definition alt_nav_links : list str := [s_ "https://www.tops.co.th/en/petnme"].

Definition alt_main_links (find_category find_product : str -> list str)
    (sched1 sched2 : list nat) : option (list str) :=
  category_pages ← map_result find_category alt_nav_links sched1;
  let product_listing_pages := chain_from_iterable category_pages in
  products_pages ← map_result find_product (take 1 product_listing_pages) sched2;
  let product_page_links := chain_from_iterable products_pages in
  mret (take 10 product_page_links).

(** A hasher without collisions, for the examples: a key is what was
    hashed. *)
#[warnings="-register-all"]
Inductive hkey : Type :=
  | HInputs (m : gmap string CachePolicy.arg)
  | HSource (s : str)
  | HKeys (l : list hkey).

Definition tree_hasher : CachePolicy.Hasher :=
  {| CachePolicy.key := hkey;
     CachePolicy.hash_inputs := HInputs;
     CachePolicy.hash_source := HSource;
     CachePolicy.hash_keys := HKeys |}.

(** ** [find_category_pages] *)

(** What a navigation page answers to [find_category_pages]: the outcome of
    the navigation, of the wait for the carousels, and the [href] of each
    carousel link, in page order. *)
Record NavPage := {
  nav_goto : result unit;                    (* page.goto(on_url) *)
  nav_carousel : result unit;                (* wait_for_selector(...plp-carousel) *)
  nav_hrefs : result (list (option str));    (* href of each .plp-carousel__link *)
}.

Class NavSite := { nav_site : str -> NavPage }.

Section Categories.
Context `{PyFloat} `{NavSite}.

Definition goto_nav (p : Page) (url : str) : M unit := fun w =>
  match nav_goto (nav_site url) with
  | Ok _ => (Ok tt, {| site := site w; trace := EvGoto p url :: trace w |})
  | Raise e => (Raise e, w)
  end.

Definition query_nav {A : Type} (f : NavPage -> result A) (p : Page) : M A := fun w =>
  match page_url p (trace w) with
  | Some url => (f (nav_site url), w)
  | None => (Raise TimeoutError, w)
  end.

(** The browsers launched since [old] that [new] has not closed. *)
Definition still_open (old new : list event) : list Browser :=
  List.filter (fun b => negb (browser_closed b new))
    (seq (launches old) (launches new - launches old)).

(** [async with async_playwright() as p: body]: when the block is left, at
    its end or by an exception, the driver stops, and the browsers launched
    in the block that are still open are closed with it. *)
Definition async_with_playwright {A : Type} (body : M A) : M A := fun w =>
  let '(r, w') := body w in
  (r, {| site := site w';
         trace := map EvCloseBrowser (still_open (trace w) (trace w')) ++ trace w' |}).

Definition find_category_pages (on_url : str) : M (list (option str)) :=
  rate_limit "tops_website";;
  async_with_playwright
    (browser ← launch;
     page ← new_page browser;
     goto_nav page on_url;;
     query_nav nav_carousel page;;
     (* page.wait_for_timeout(5_000) *)
     category_links ← query_nav nav_hrefs page;
     close_browser_ browser;;
     mret category_links).
End Categories.

(** * Properties *)

(** ** Character classes *)

Ltac by_cases_on_char c :=
  destruct c as [[] [] [] [] [] [] [] []]; vm_compute; try reflexivity; try discriminate; auto.

Lemma isdecimal_isdigit c : isdecimal c = true -> isdigit c = true.
Proof. by_cases_on_char c. Qed.

Lemma isdecimal_is_alnum c : isdecimal c = true -> is_alnum c = true.
Proof. by_cases_on_char c. Qed.

Lemma is_letter_is_alnum c : is_letter c = true -> is_alnum c = true.
Proof. by_cases_on_char c. Qed.

Lemma isdecimal_not_space c : isdecimal c = true -> isspace c = false.
Proof. by_cases_on_char c. Qed.

Lemma is_letter_not_space c : is_letter c = true -> isspace c = false.
Proof. by_cases_on_char c. Qed.

Lemma is_letter_not_decimal c : is_letter c = true -> isdecimal c = false.
Proof. by_cases_on_char c. Qed.

Lemma isdigit_not_space c : isdigit c = true -> isspace c = false.
Proof. by_cases_on_char c. Qed.

Lemma is_char_eq x c : is_char x c = true <-> c = x.
Proof.
  unfold is_char, ord. rewrite N.eqb_eq. split; [|congruence].
  intros E. rewrite <- (ascii_N_embedding c), <- (ascii_N_embedding x). congruence.
Qed.

Lemma is_blank_isspace c : is_blank c = true -> isspace c = true.
Proof. by_cases_on_char c. Qed.

(** ** [is_valid_ean13] *)

Lemma int_of_char_decimal c : isdecimal c = true -> int_of_char c = Ok (digit_val c).
Proof. unfold int_of_char. intros ->. reflexivity. Qed.

Lemma result_mapM_ok {A B} (f : A -> result B) (g : A -> B) l :
  Forall (fun x => f x = Ok (g x)) l -> result_mapM f l = Ok (map g l).
Proof.
  induction 1 as [|x l Hx _ IH]; simpl; [reflexivity|].
  rewrite Hx. simpl. rewrite IH. reflexivity.
Qed.

Lemma result_mapM_raise {A B} (f : A -> result B) e l :
  (forall x, (exists y, f x = Ok y) \/ f x = Raise e) ->
  Exists (fun x => f x = Raise e) l -> result_mapM f l = Raise e.
Proof.
  intros Hf. induction 1 as [x l Hx|x l _ IH]; simpl.
  - rewrite Hx. reflexivity.
  - destruct (Hf x) as [[y ->]| ->]; simpl; [rewrite IH|]; reflexivity.
Qed.

Lemma forallb_Forall_true {A} (f : A -> bool) l :
  forallb f l = true <-> Forall (fun x => f x = true) l.
Proof.
  induction l as [|x l IH]; simpl.
  - split; [constructor|reflexivity].
  - rewrite andb_true_iff, IH. split.
    + intros [? ?]. constructor; assumption.
    + inversion 1; subst. split; assumption.
Qed.

Lemma str_isdigit_spec s :
  str_isdigit s = true <-> s <> [] /\ Forall (fun c => isdigit c = true) s.
Proof.
  unfold str_isdigit. rewrite andb_true_iff, negb_true_iff, bool_decide_eq_false.
  rewrite forallb_Forall_true. tauto.
Qed.

(** A string that is not thirteen digit characters is rejected. *)
Lemma is_valid_ean13_rejects s :
  ~ (length s = 13%nat /\ Forall (fun c => isdigit c = true) s) ->
  is_valid_ean13 s = Ok false.
Proof.
  intros Hn. unfold is_valid_ean13.
  destruct (str_isdigit s) eqn:Ed; simpl; [|reflexivity].
  destruct (length s =? 13)%nat eqn:El; simpl; [|reflexivity].
  exfalso. apply Hn. apply Nat.eqb_eq in El. apply str_isdigit_spec in Ed. tauto.
Qed.

(** On thirteen decimal digits the answer is the check of the specification. *)
Lemma is_valid_ean13_decimal s :
  length s = 13%nat -> Forall (fun c => isdecimal c = true) s ->
  is_valid_ean13 s = Ok (check_digit_matches s).
Proof.
  intros Hl Hd.
  do 14 (destruct s as [|? s]; try discriminate Hl). clear Hl.
  assert (Hdig : str_isdigit [a; a0; a1; a2; a3; a4; a5; a6; a7; a8; a9; a10; a11] = true).
  { apply str_isdigit_spec. split; [discriminate|].
    eapply Forall_impl; [exact Hd|]. intros c. apply isdecimal_isdigit. }
  unfold is_valid_ean13. rewrite Hdig. simpl negb. simpl orb. cbv iota.
  rewrite (result_mapM_ok int_of_char digit_val) by
    (eapply Forall_impl; [exact Hd|]; intros c; apply int_of_char_decimal).
  cbn -[digit_val Z.modulo Z.mul Z.add Z.sub Z.eqb].
  unfold check_digit_matches, weighted_sum12, mret, result_ret.
  cbn -[digit_val Z.modulo Z.mul Z.add Z.sub Z.eqb].
  rewrite Zminus_mod_idemp_r. rewrite (Z.eqb_sym (digit_val a11)).
  f_equal. f_equal. f_equal. lia.
Qed.

(** Thirteen digit characters of which one is no decimal digit make [int]
    raise. *)
Lemma is_valid_ean13_raises s :
  length s = 13%nat -> Forall (fun c => isdigit c = true) s ->
  Exists (fun c => isdecimal c = false) s ->
  is_valid_ean13 s = Raise ValueError.
Proof.
  intros Hl Hd Hx. unfold is_valid_ean13.
  assert (str_isdigit s = true) as ->.
  { apply str_isdigit_spec. split; [|exact Hd]. intros ->. discriminate. }
  apply Nat.eqb_eq in Hl. rewrite Hl. simpl.
  rewrite (result_mapM_raise int_of_char ValueError); [reflexivity| |].
  - intros c. unfold int_of_char. destruct (isdecimal c); eauto.
  - eapply Exists_impl; [exact Hx|]. intros c Hc. unfold int_of_char. rewrite Hc. reflexivity.
Qed.

(** The validator in the words of the specification, on the strings whose
    digit characters are all decimal digits. *)
Lemma is_valid_ean13_spec s :
  Forall (fun c => isdigit c = true -> isdecimal c = true) s ->
  is_valid_ean13 s = Ok (ean13_spec s).
Proof.
  intros Hs. unfold ean13_spec.
  destruct (decide (length s = 13%nat /\ Forall (fun c => isdigit c = true) s)) as [[Hl Hd]|Hn].
  - assert (Hdec : Forall (fun c => isdecimal c = true) s).
    { rewrite Forall_forall in *. auto. }
    rewrite is_valid_ean13_decimal by assumption.
    apply Nat.eqb_eq in Hl. rewrite Hl.
    apply forallb_Forall_true in Hdec. rewrite Hdec. reflexivity.
  - rewrite is_valid_ean13_rejects by assumption. f_equal. symmetry.
    destruct (Nat.eqb_spec (length s) 13) as [Hl|]; [|reflexivity].
    destruct (forallb isdecimal s) eqn:Hd; [|reflexivity].
    exfalso. apply Hn. split; [exact Hl|].
    apply forallb_Forall_true in Hd.
    eapply Forall_impl; [exact Hd|]. intros c. apply isdecimal_isdigit.
Qed.

(** C3: for every string the validator answers whether the string is thirteen
    numeric digits with a matching check digit, and never raises.  The code
    answers so on the three strings of the specification, and raises
    [ValueError] on thirteen superscript digits, which [str.isdigit] lets
    through to [int]. *)
Theorem c3_is_valid_ean13_raises_on_superscript_digits :
  is_valid_ean13 (s_ "4006381333931") = Ok true /\
  is_valid_ean13 (s_ "4006381333932") = Ok false /\
  is_valid_ean13 (s_ "12345") = Ok false /\
  is_valid_ean13 (repeat superscript_two 13) = Raise ValueError.
Proof. repeat split; vm_compute; reflexivity. Qed.

(** ** Tokens *)

Lemma last_snoc {A} (l : list A) x : Py.last (l ++ [x]) = Ok x.
Proof. unfold Py.last. rewrite rev_app_distr. reflexivity. Qed.

Lemma last_cons {A} (x : A) l : l <> [] -> Py.last (x :: l) = Py.last l.
Proof.
  intros Hl. destruct (exists_last Hl) as (l' & y & ->).
  rewrite app_comm_cons, !last_snoc. reflexivity.
Qed.

Lemma re_split_ws_nonempty s : re_split_ws s <> [].
Proof.
  induction s as [|c r IH]; cbn [re_split_ws]; [discriminate|].
  destruct (isspace c).
  - destruct r as [|c' r']; [discriminate|]. destruct (isspace c'); [exact IH|discriminate].
  - destruct (re_split_ws r); discriminate.
Qed.

Lemma no_space_cons c s : no_space (c :: s) = negb (isspace c) && no_space s.
Proof. reflexivity. Qed.

Lemma no_space_app s t : no_space (s ++ t) = no_space s && no_space t.
Proof. unfold no_space. apply forallb_app. Qed.

(** A text without whitespace is one token, and only such a text is. *)
Lemma re_split_ws_no_space s : no_space s = true -> re_split_ws s = [s].
Proof.
  induction s as [|c r IH]; [reflexivity|].
  rewrite no_space_cons, andb_true_iff, negb_true_iff. intros [Hc Hr].
  cbn [re_split_ws]. rewrite Hc, (IH Hr). reflexivity.
Qed.

Lemma re_split_ws_space s :
  no_space s = false -> exists t t' ts, re_split_ws s = t :: t' :: ts.
Proof.
  induction s as [|c r IH]; [discriminate|].
  rewrite no_space_cons. cbn [re_split_ws]. destruct (isspace c) eqn:Hc; simpl.
  - intros _. destruct r as [|c' r'].
    + simpl. eauto.
    + destruct (isspace c') eqn:Hc'.
      * apply IH. rewrite no_space_cons, Hc'. reflexivity.
      * destruct (re_split_ws (c' :: r')) as [|t ts] eqn:E; [|eauto].
        exfalso. exact (re_split_ws_nonempty _ E).
  - intros Hr. destruct (IH Hr) as (t & t' & ts & ->). eauto.
Qed.

Lemma tail_word_no_space s : no_space s = true -> tail_word s = s.
Proof. destruct s as [|c r]; [reflexivity|]. cbn [tail_word]. intros ->. reflexivity. Qed.

(** The last piece of the split is the last whitespace-delimited token. *)
Lemma last_re_split_ws s : Py.last (re_split_ws s) = Ok (tail_word s).
Proof.
  induction s as [|c r IH]; [reflexivity|].
  cbn [re_split_ws tail_word]. rewrite no_space_cons.
  destruct (isspace c) eqn:Hc; simpl negb; simpl andb.
  - destruct r as [|c' r']; [reflexivity|].
    destruct (isspace c'); [exact IH|].
    rewrite last_cons by apply re_split_ws_nonempty. exact IH.
  - destruct (no_space r) eqn:Hr.
    + rewrite (re_split_ws_no_space _ Hr). reflexivity.
    + destruct (re_split_ws_space _ Hr) as (t & t' & ts & E). rewrite E in *.
      rewrite last_cons in IH by discriminate.
      rewrite last_cons by discriminate. exact IH.
Qed.

Lemma tail_word_after_space pre c q :
  isspace c = true -> no_space q = true -> tail_word (pre ++ c :: q) = q.
Proof.
  intros Hc Hq. induction pre as [|x pre IH].
  - simpl app. cbn [tail_word]. rewrite no_space_cons, Hc. simpl.
    apply tail_word_no_space, Hq.
  - simpl app. cbn [tail_word]. rewrite no_space_cons, no_space_app, no_space_cons, Hc.
    simpl. rewrite !andb_false_r. exact IH.
Qed.

(** Splitting what was joined by single spaces gives the words back. *)
Lemma re_split_ws_word_space w rest :
  no_space w = true -> (forall c r, rest = c :: r -> isspace c = false) ->
  re_split_ws (w ++ " "%char :: rest) = w :: re_split_ws rest.
Proof.
  intros Hw Hrest. induction w as [|x w IH].
  - simpl app. cbn [re_split_ws]. change (isspace " ") with true. cbv iota.
    destruct rest as [|c r]; [reflexivity|]. rewrite (Hrest c r eq_refl). reflexivity.
  - rewrite no_space_cons, andb_true_iff, negb_true_iff in Hw. destruct Hw as [Hx Hw].
    simpl app. cbn [re_split_ws]. rewrite Hx, (IH Hw). reflexivity.
Qed.

Lemma join_cons sep p q ps : join sep (p :: q :: ps) = p ++ sep ++ join sep (q :: ps).
Proof. reflexivity. Qed.

Lemma join_snoc sep ps q : ps <> [] -> join sep (ps ++ [q]) = join sep ps ++ sep ++ q.
Proof.
  induction ps as [|p ps IH]; [congruence|]. intros _.
  destruct ps as [|p' ps]; [reflexivity|].
  change ((p :: p' :: ps) ++ [q]) with (p :: p' :: (ps ++ [q])).
  rewrite !join_cons. change (p' :: ps ++ [q]) with ((p' :: ps) ++ [q]).
  rewrite IH by discriminate. rewrite <- !app_assoc. reflexivity.
Qed.

Lemma join_clean_head ws :
  clean_words ws -> exists c r, join [" "%char] ws = c :: r /\ isspace c = false.
Proof.
  intros [Hne Hws]. destruct ws as [|w ws]; [congruence|].
  inversion Hws as [|? ? [Hw Hs] _]; subst.
  destruct w as [|c w]; [congruence|].
  rewrite no_space_cons, andb_true_iff, negb_true_iff in Hs.
  destruct ws; simpl; eexists _, _; split; try reflexivity; tauto.
Qed.

Lemma re_split_ws_join ws : clean_words ws -> re_split_ws (join [" "%char] ws) = ws.
Proof.
  intros [Hne Hws]. induction Hws as [|w ws [Hw Hs] Hws IH]; [congruence|].
  destruct ws as [|w' ws].
  - simpl. apply re_split_ws_no_space, Hs.
  - change (join [" "%char] (w :: w' :: ws))
      with (w ++ " "%char :: join [" "%char] (w' :: ws)).
    destruct (join_clean_head (w' :: ws)) as (c & r & E & Hc); [split; [discriminate|exact Hws]|].
    rewrite re_split_ws_word_space; [|exact Hs|].
    + rewrite IH by discriminate. reflexivity.
    + intros c0 r0 E0. rewrite E in E0. injection E0 as <- <-. exact Hc.
Qed.

(** ** The quantity pattern *)

Lemma is_newline_eq c : is_newline c = true <-> c = newline.
Proof. change (is_newline c) with (is_char newline c). apply is_char_eq. Qed.

Lemma at_dollar_spec s : at_dollar s = true <-> line_end s.
Proof.
  unfold line_end. destruct s as [|c [|c' s]]; simpl.
  - intuition.
  - rewrite is_newline_eq. split; [intros ->; auto|]. intros [|[= ->]]; [discriminate|reflexivity].
  - split; [discriminate|]. intros [|]; discriminate.
Qed.

Lemma m_dot_end_spec s :
  m_dot_end s = true <-> exists nl, s = "."%char :: nl /\ line_end nl.
Proof.
  destruct s as [|c r]; simpl.
  - split; [discriminate|]. intros (? & ? & _). discriminate.
  - rewrite andb_true_iff, is_char_eq, at_dollar_spec. split.
    + intros [-> ?]. eauto.
    + intros (nl & [= -> ->] & ?). auto.
Qed.

Lemma m_unit_spec s :
  m_unit s = true <->
  exists us nl, s = us ++ "."%char :: nl /\
    (length us = 1%nat \/ length us = 2%nat) /\
    Forall (fun c => is_letter c = true) us /\ line_end nl.
Proof.
  split.
  - destruct s as [|a r]; [discriminate|]. cbn [m_unit].
    rewrite andb_true_iff, orb_true_iff. intros [Ha [H2|H1]].
    + destruct r as [|b r']; [discriminate|].
      apply andb_true_iff in H2 as [Hb Hd]. apply m_dot_end_spec in Hd as (nl & -> & Hnl).
      exists [a; b], nl. repeat split; auto.
    + apply m_dot_end_spec in H1 as (nl & -> & Hnl).
      exists [a], nl. repeat split; auto.
  - intros (us & nl & -> & Hlen & Hus & Hnl).
    assert (Hd : m_dot_end ("."%char :: nl) = true) by (apply m_dot_end_spec; eauto).
    destruct us as [|a [|b [|c us]]]; simpl in Hlen; try lia.
    + inversion Hus; subst. cbn [app m_unit]. rewrite Hd, orb_true_r, andb_true_r. assumption.
    + inversion Hus as [|? ? Ha Hus']; subst. inversion Hus'; subst.
      cbn [app m_unit]. rewrite Ha. simpl andb.
      apply orb_true_iff. left. apply andb_true_iff. split; assumption.
Qed.

Lemma m_digits_spec s :
  m_digits s = true <->
  exists ds us nl, s = ds ++ us ++ "."%char :: nl /\ quantity_suffix ds us /\ line_end nl.
Proof.
  split.
  - induction s as [|d r IH]; [discriminate|]. cbn [m_digits].
    rewrite andb_true_iff, orb_true_iff. intros [Hd [Hr|Hr]].
    + destruct (IH Hr) as (ds & us & nl & -> & (Hne & Hds & Hlen & Hus) & Hnl).
      exists (d :: ds), us, nl. repeat split; auto; try discriminate.
    + apply m_unit_spec in Hr as (us & nl & -> & Hlen & Hus & Hnl).
      exists [d], us, nl. repeat split; auto; try discriminate.
  - intros (ds & us & nl & -> & (Hne & Hds & Hlen & Hus) & Hnl).
    induction Hds as [|d ds Hd Hds IH]; [congruence|].
    cbn [app m_digits]. rewrite Hd. simpl andb. apply orb_true_iff.
    destruct ds as [|d' ds'].
    + right. apply m_unit_spec. exists us, nl. auto.
    + left. apply IH. discriminate.
Qed.

Lemma m_here_spec s :
  m_here s = true <->
  exists ds us nl, s = " "%char :: ds ++ us ++ "."%char :: nl /\
    quantity_suffix ds us /\ line_end nl.
Proof.
  destruct s as [|c r]; cbn [m_here].
  - split; [discriminate|]. intros (? & ? & ? & ? & _). discriminate.
  - rewrite andb_true_iff, is_char_eq, m_digits_spec. split.
    + intros [-> (ds & us & nl & -> & ?)]. eauto 6.
    + intros (ds & us & nl & [= -> ->] & ?). eauto 6.
Qed.

(** The search succeeds exactly on the names with a quantity suffix. *)
Lemma re_search_quantity_spec s : re_search_quantity s = true <-> has_quantity_suffix s.
Proof.
  unfold has_quantity_suffix. split.
  - induction s as [|c r IH]; cbn [re_search_quantity]; rewrite orb_true_iff.
    + intros [?|?]; discriminate.
    + intros [Hh|Hr].
      * apply m_here_spec in Hh as (ds & us & nl & -> & ?). exists [], ds, us, nl. auto.
      * destruct (IH Hr) as (pre & ds & us & nl & -> & ?). exists (c :: pre), ds, us, nl. auto.
  - intros (pre & ds & us & nl & -> & Hq & Hnl).
    induction pre as [|c pre IH].
    + assert (Hh : m_here ([] ++ " "%char :: ds ++ us ++ "."%char :: nl) = true)
        by (apply m_here_spec; eauto 6).
      simpl app in *. cbn [re_search_quantity]. rewrite Hh. reflexivity.
    + cbn [app re_search_quantity]. rewrite IH. apply orb_true_r.
Qed.

(** ** [split_name_quantity] *)

Lemma filter_all {A} (f : A -> bool) l :
  Forall (fun x => f x = true) l -> List.filter f l = l.
Proof. induction 1 as [|x l Hx _ IH]; simpl; [|rewrite Hx, IH]; reflexivity. Qed.

Lemma quantity_token ds us :
  quantity_suffix ds us ->
  no_space (ds ++ us ++ ["."%char]) = true /\
  re_sub_non_alnum (ds ++ us ++ ["."%char]) = ds ++ us.
Proof.
  intros (_ & Hds & _ & Hus). split.
  - rewrite !no_space_app, andb_true_iff, andb_true_iff. split; [|split; [|reflexivity]].
    + apply forallb_Forall_true. eapply Forall_impl; [exact Hds|].
      intros c Hc. simpl. rewrite (isdecimal_not_space c Hc). reflexivity.
    + apply forallb_Forall_true. eapply Forall_impl; [exact Hus|].
      intros c Hc. simpl. rewrite (is_letter_not_space c Hc). reflexivity.
  - unfold re_sub_non_alnum. rewrite !List.filter_app.
    rewrite (filter_all is_alnum ds), (filter_all is_alnum us).
    + simpl. rewrite app_nil_r. reflexivity.
    + eapply Forall_impl; [exact Hus|]. intros c. apply is_letter_is_alnum.
    + eapply Forall_impl; [exact Hds|]. intros c. apply isdecimal_is_alnum.
Qed.

(** A name that ends in a quantity suffix: the quantity is number and unit,
    the name is made of the tokens before it. *)
Lemma split_name_quantity_suffix pre ds us :
  quantity_suffix ds us ->
  let name := pre ++ " "%char :: ds ++ us ++ ["."%char] in
  Py.last (re_split_ws name) = Ok (ds ++ us ++ ["."%char]) /\
  split_name_quantity name =
    Ok (re_sub_leading_paren (join [" "%char] (removelast (re_split_ws name))),
        Some (ds ++ us)).
Proof.
  intros Hq name. destruct (quantity_token ds us Hq) as [Hns Hal].
  assert (Hlast : Py.last (re_split_ws name) = Ok (ds ++ us ++ ["."%char])).
  { rewrite last_re_split_ws. unfold name. f_equal.
    apply (tail_word_after_space pre " "%char); [reflexivity|exact Hns]. }
  split; [exact Hlast|].
  unfold split_name_quantity.
  assert (re_search_quantity name = true) as ->.
  { apply re_search_quantity_spec. exists pre, ds, us, []. unfold line_end. auto. }
  rewrite Hlast. simpl. rewrite Hal. reflexivity.
Qed.




Lemma m_dotstar_close_last q rest :
  Forall (fun c => is_newline c = false) q ->
  Forall (fun c => is_newline c = false /\ is_char ")" c = false) rest ->
  m_dotstar_close (q ++ ")"%char :: rest) = Some rest.
Proof.
  intros Hq Hrest.
  assert (Hnone : m_dotstar_close rest = None).
  { induction Hrest as [|c r [Hn Hp] _ IH]; [reflexivity|].
    cbn [m_dotstar_close]. rewrite Hn, IH, Hp. reflexivity. }
  induction Hq as [|c q Hc _ IH].
  - cbn [app m_dotstar_close]. rewrite Hnone. reflexivity.
  - cbn [app m_dotstar_close]. rewrite Hc, IH. reflexivity.
Qed.

(** A qualifier in parentheses at the head of the text goes, with the
    whitespace after it. *)
Lemma re_sub_leading_paren_qualifier q rest :
  q <> [] -> Forall (fun c => is_newline c = false) q ->
  Forall (fun c => is_newline c = false /\ is_char ")" c = false) rest ->
  re_sub_leading_paren ("("%char :: q ++ ")"%char :: rest) = lstrip rest.
Proof.
  intros Hne Hq Hrest. destruct q as [|c q]; [congruence|].
  inversion Hq as [|? ? Hc Hq']; subst.
  cbn [app re_sub_leading_paren]. rewrite Hc.
  change (is_char "(" "(") with true. cbn [andb negb].
  rewrite (m_dotstar_close_last q rest Hq' Hrest). reflexivity.
Qed.




(** ** One run of [extract_product_info], written out *)

Section Run.
Context `{PyFloat}.

Lemma extract_details_run p url w :
  page_url p (trace w) = Some url ->
  extract_details p w = (details_of (site w url), w).
Proof.
  intros Hp. unfold extract_details, try_except_timeout, details_of, query, mbind, M_bind.
  rewrite Hp. destruct (details_text (site w url)) as [d|[]]; reflexivity.
Qed.

Lemma bind_query {A B} (f : ProductPage -> result A) (k : A -> M B) p url w :
  page_url p (trace w) = Some url ->
  (query f p ≫= k) w =
    match f (site w url) with
    | Ok a => k a w
    | Raise e => (Raise e, w)
    end.
Proof. intros Hp. unfold mbind, M_bind, query. rewrite Hp. reflexivity. Qed.

Lemma bind_lift {A B} (r : result A) (k : A -> M B) w :
  (lift r ≫= k) w =
    match r with
    | Ok a => k a w
    | Raise e => (Raise e, w)
    end.
Proof. reflexivity. Qed.

Lemma bind_details {B} (k : option str -> M B) p url w :
  page_url p (trace w) = Some url ->
  (extract_details p ≫= k) w =
    match details_of (site w url) with
    | Ok a => k a w
    | Raise e => (Raise e, w)
    end.
Proof.
  intros Hp. unfold mbind at 1. unfold M_bind at 1.
  rewrite (extract_details_run p url w Hp). reflexivity.
Qed.

(** From the navigation on: the queries, the record, the closing. *)
Lemma run_on_page on_url browser b p w4 :
  page_url p (trace w4) = Some on_url ->
  (name ← query name_text p;
   images ← query image_srcs p;
   '(name, quantity) ← lift (split_name_quantity name);
   sku ← query sku_text p;
   barcode ← lift (barcode_of_sku sku);
   details ← extract_details p;
   price ← query price_text p;
   price ← lift (py_float price);
   labels ← query label_alts p;
   labels ← lift (clean_labels labels);
   let data : record :=
     [ ("name"%string, VStr name);
       ("quantity"%string, of_opt_str quantity);
       ("price"%string, VFloat price);
       ("images"%string, VList (map of_opt_str images));
       ("barcode"%string, of_opt_str barcode);
       ("labels"%string, VList (map VStr labels));
       ("store_url"%string, VStr on_url) ] in
   close_page p;;
   (if (match browser with None => true | Some _ => false end) : bool
    then close_browser_ b else mret tt);;
   mret data) w4
  = match page_record on_url (site w4 on_url) with
    | Raise e => (Raise e, w4)
    | Ok data => (Ok data, with_trace w4 (closing browser b p ++ trace w4))
    end.
Proof.
  intros Hp. unfold page_record.
  repeat
    (first [ rewrite (bind_query _ _ _ _ _ Hp)
           | rewrite (bind_details _ _ _ _ Hp)
           | rewrite bind_lift ];
     cbn [site trace];
     match goal with
     | |- match ?r with Ok _ => _ | Raise _ => _ end = _ =>
         destruct r; cbn [mbind result_bind]; [|reflexivity]
     end;
     try match goal with nq : (str * option str)%type |- _ => destruct nq end).
  destruct browser; reflexivity.
Qed.

Lemma bind_emit {B} (e : event) (k : unit -> M B) w :
  (emit e ≫= k) w = k tt (with_trace w (e :: trace w)).
Proof. reflexivity. Qed.

Lemma bind_ret {A B} (a : A) (k : A -> M B) w : (mret a ≫= k) w = k a w.
Proof. reflexivity. Qed.

Lemma bind_launch {B} (k : Browser * bool -> M B) w :
  ((b ← launch; mret (b, true)) ≫= k) w =
    let b := length (List.filter is_launch (trace w)) in
    k (b, true) (with_trace w (EvLaunch b :: trace w)).
Proof. reflexivity. Qed.

Lemma bind_new_page {B} (b : Browser) (k : Page -> M B) w :
  (new_page b ≫= k) w =
    if browser_closed b (trace w) then (Raise PlaywrightError, w)
    else
      let p := length (List.filter is_new_page (trace w)) in
      k p (with_trace w (EvNewPage b p :: trace w)).
Proof.
  unfold mbind, M_bind, new_page. destruct (browser_closed b (trace w)); reflexivity.
Qed.

Lemma bind_goto {B} (p : Page) (url : str) (k : unit -> M B) w :
  (goto p url ≫= k) w =
    match goto_outcome (site w url) with
    | Ok _ => k tt (with_trace w (EvGoto p url :: trace w))
    | Raise e => (Raise e, w)
    end.
Proof.
  unfold mbind, M_bind, goto. destruct (goto_outcome (site w url)); reflexivity.
Qed.

Lemma extract_product_info_run on_url browser w :
  extract_product_info on_url browser w = run_of on_url browser w.
Proof.
  unfold extract_product_info, run_of, session_of, rate_limit.
  rewrite bind_emit.
  destruct browser as [b|]; [rewrite bind_ret|rewrite bind_launch; cbv zeta];
    rewrite bind_new_page; cbn [with_trace trace site].
  all: match goal with |- context [browser_closed ?b ?tr] => destruct (browser_closed b tr) end;
       [destruct w; reflexivity|].
  all: cbv zeta; rewrite bind_goto; cbn [with_trace trace site].
  all: destruct (goto_outcome (site w on_url)); [|reflexivity].
  all: match goal with
       | |- _ (with_trace _ (EvGoto ?p _ :: ?tr)) = _ =>
           assert (Hp : page_url p (trace (with_trace w (EvGoto p on_url :: tr))) = Some on_url)
             by (cbn [with_trace trace page_url]; rewrite Nat.eqb_refl; reflexivity)
       end.
  - exact (run_on_page on_url (Some b) b _ _ Hp).
  - exact (run_on_page on_url None _ _ _ Hp).
Qed.
End Run.

Section RunFacts.
Context `{PyFloat}.

Lemma run_site on_url browser w : site (extract_product_info on_url browser w).2 = site w.
Proof.
  rewrite extract_product_info_run. unfold run_of.
  destruct (session_of browser (trace w)) as [b tr2].
  destruct (browser_closed b tr2); [reflexivity|].
  destruct (goto_outcome (site w on_url)); [|reflexivity].
  destruct (page_record on_url (site w on_url)); reflexivity.
Qed.

(** What a run adds to the trace. *)
Lemma run_trace on_url browser w :
  exists evs,
    trace (extract_product_info on_url browser w).2 = evs ++ trace w /\
    Forall (fun e => plain e = true) evs /\
    (forall b, browser = Some b -> Forall (fun e => is_close_browser e = false) evs).
Proof.
  rewrite extract_product_info_run. unfold run_of, session_of.
  destruct browser as [b|].
  all: match goal with |- context [browser_closed ?b ?tr] => destruct (browser_closed b tr) end.
  all: try destruct (goto_outcome (site w on_url)).
  all: try destruct (page_record on_url (site w on_url)).
  all: cbn [snd with_trace trace closing app].
  all: match goal with
       | |- exists evs, ?new = evs ++ ?old /\ _ =>
           let rec pre l :=
             lazymatch l with
             | old => constr:(@nil event)
             | ?e :: ?l' => let r := pre l' in constr:(e :: r)
             end in
           let evs := pre new in exists evs
       end.
  all: split; [reflexivity|].
  all: split; [repeat constructor|].
  all: intros b' Hb; try discriminate Hb; repeat constructor.
Qed.

Lemma page_record_bad_price on_url pg txt :
  price_text pg = Ok txt -> float_of_str txt = None ->
  exists e, page_record on_url pg = Raise e.
Proof.
  intros Hp Hf. unfold page_record. rewrite Hp.
  destruct (name_text pg); cbn [mbind result_bind]; [|eauto].
  destruct (image_srcs pg); cbn [mbind result_bind]; [|eauto].
  destruct (split_name_quantity a); cbn [mbind result_bind]; [|eauto].
  destruct (sku_text pg); cbn [mbind result_bind]; [|eauto].
  destruct (barcode_of_sku a2); cbn [mbind result_bind]; [|eauto].
  destruct (details_of pg); cbn [mbind result_bind]; [|eauto].
  unfold py_float. rewrite Hf. cbn [mbind result_bind]. eauto.
Qed.

(** With every other field in order, the failure is the [ValueError] of
    [float]. *)
Lemma page_record_bad_price_value_error on_url pg name images nq sku barcode txt :
  name_text pg = Ok name -> image_srcs pg = Ok images ->
  split_name_quantity name = Ok nq ->
  sku_text pg = Ok sku -> barcode_of_sku sku = Ok barcode ->
  soft (details_text pg) ->
  price_text pg = Ok txt -> float_of_str txt = None ->
  page_record on_url pg = Raise ValueError.
Proof.
  intros Hn Hi Hq Hs Hb Hd Hp Hf. unfold page_record, py_float, details_of.
  rewrite Hn, Hi. cbn [mbind result_bind]. rewrite Hq. cbn [mbind result_bind].
  rewrite Hs. cbn [mbind result_bind]. rewrite Hb. cbn [mbind result_bind].
  rewrite Hp.
  destruct (details_text pg) as [d|[]]; try contradiction;
    cbn [mbind result_bind]; rewrite Hf; reflexivity.
Qed.

(** The record does not depend on the details content. *)
Lemma page_record_details on_url pg d1 d2 :
  soft d1 -> soft d2 ->
  page_record on_url (with_details d1 pg) = page_record on_url (with_details d2 pg).
Proof.
  intros H1 H2. unfold page_record, details_of. cbn [with_details name_text image_srcs
    sku_text details_text price_text label_alts].
  destruct (name_text pg); cbn [mbind result_bind]; [|reflexivity].
  destruct (image_srcs pg); cbn [mbind result_bind]; [|reflexivity].
  destruct (split_name_quantity a); cbn [mbind result_bind]; [|reflexivity].
  destruct (sku_text pg); cbn [mbind result_bind]; [|reflexivity].
  destruct (barcode_of_sku a2); cbn [mbind result_bind]; [|reflexivity].
  destruct d1 as [?|[]], d2 as [?|[]]; try contradiction; reflexivity.
Qed.

Lemma run_details on_url browser w d1 d2 :
  soft d1 -> soft d2 ->
  (extract_product_info on_url browser (set_details d1 w)).1 =
  (extract_product_info on_url browser (set_details d2 w)).1 /\
  trace (extract_product_info on_url browser (set_details d1 w)).2 =
  trace (extract_product_info on_url browser (set_details d2 w)).2.
Proof.
  intros H1 H2. rewrite !extract_product_info_run. unfold run_of.
  cbn [set_details trace site].
  destruct (session_of browser (trace w)) as [b tr2].
  destruct (browser_closed b tr2); [split; reflexivity|].
  change (goto_outcome (with_details d1 (site w on_url))) with (goto_outcome (site w on_url)).
  change (goto_outcome (with_details d2 (site w on_url))) with (goto_outcome (site w on_url)).
  destruct (goto_outcome (site w on_url)); [|split; reflexivity].
  rewrite (page_record_details on_url (site w on_url) d1 d2 H1 H2).
  match goal with |- context [match ?r with Ok _ => _ | Raise _ => _ end] => destruct r end;
    split; reflexivity.
Qed.

Lemma page_record_keys on_url pg data :
  page_record on_url pg = Ok data ->
  keys data = ["name"; "quantity"; "price"; "images"; "barcode"; "labels"; "store_url"]%string /\
  get data "store_url" = Some (VStr on_url) /\
  get data "details" = None.
Proof.
  unfold page_record.
  destruct (name_text pg); cbn [mbind result_bind]; [|discriminate].
  destruct (image_srcs pg); cbn [mbind result_bind]; [|discriminate].
  destruct (split_name_quantity a); cbn [mbind result_bind]; [|discriminate].
  destruct (sku_text pg); cbn [mbind result_bind]; [|discriminate].
  destruct (barcode_of_sku a2); cbn [mbind result_bind]; [|discriminate].
  destruct (details_of pg); cbn [mbind result_bind]; [|discriminate].
  destruct (price_text pg); cbn [mbind result_bind]; [|discriminate].
  destruct (py_float a5); cbn [mbind result_bind]; [|discriminate].
  destruct (label_alts pg); cbn [mbind result_bind]; [|discriminate].
  destruct (clean_labels a7); cbn [mbind result_bind]; [|discriminate].
  intros [= <-]. repeat split.
Qed.

Lemma run_ok_record on_url browser w data w' :
  extract_product_info on_url browser w = (Ok data, w') ->
  page_record on_url (site w on_url) = Ok data.
Proof.
  rewrite extract_product_info_run. unfold run_of.
  destruct (session_of browser (trace w)) as [b tr2].
  destruct (browser_closed b tr2); [discriminate|].
  destruct (goto_outcome (site w on_url)); [|discriminate].
  destruct (page_record on_url (site w on_url)); [|discriminate].
  intros [= <- _]. reflexivity.
Qed.
End RunFacts.

(** ** The barcode *)

(** The barcode in the words of the specification, on the sku texts whose
    last token has no digit character but the decimal digits. *)
Lemma barcode_of_sku_spec sku :
  let tok := tail_word (strip sku) in
  Forall (fun c => isdigit c = true -> isdecimal c = true) tok ->
  barcode_of_sku sku = Ok (if ean13_spec tok then Some (s_ "EAN-13 " ++ tok) else None).
Proof.
  intros tok Htok. unfold barcode_of_sku.
  rewrite last_re_split_ws. cbn [mbind result_bind]. fold tok.
  rewrite (is_valid_ean13_spec tok Htok). reflexivity.
Qed.

Lemma barcode_of_sku_raises sku :
  let tok := tail_word (strip sku) in
  length tok = 13%nat -> Forall (fun c => isdigit c = true) tok ->
  Exists (fun c => isdecimal c = false) tok ->
  barcode_of_sku sku = Raise ValueError.
Proof.
  intros tok Hl Hd Hx. unfold barcode_of_sku.
  rewrite last_re_split_ws. cbn [mbind result_bind]. fold tok.
  rewrite (is_valid_ean13_raises tok Hl Hd Hx). reflexivity.
Qed.

(** C6: the barcode comes from the last whitespace-delimited token of the sku
    text, [EAN-13 <code>] when the token is a valid EAN-13 and null
    otherwise, and a token that is not valid never raises.  The code does so
    on decimal tokens, and raises [ValueError] when the token is thirteen
    superscript digits, through [is_valid_ean13]; the task fails with it. *)
Theorem c6_barcode_raises_on_superscript_digits :
  barcode_of_sku (s_ " SKU 4006381333931 ") = Ok (Some (s_ "EAN-13 4006381333931")) /\
  barcode_of_sku (s_ "SKU 4006381333932") = Ok None /\
  barcode_of_sku (s_ "") = Ok None /\
  barcode_of_sku (s_ "SKU " ++ repeat superscript_two 13) = Raise ValueError /\
  (extract_product_info (H := demo_float) (s_ "https://shop/p/1") None
     (serving (with_sku (Ok (s_ "SKU " ++ repeat superscript_two 13)) milk_page))).1
  = Raise ValueError.
Proof. repeat split; vm_compute; reflexivity. Qed.

(** ** The details text *)

Lemma lstrip_starts_clean s : starts_clean (lstrip s).
Proof.
  induction s as [|c s IH]; simpl; [exact I|].
  destruct (isspace c) eqn:E; [exact IH|exact E].
Qed.

Lemma lstrip_suffix s : exists p, s = p ++ lstrip s.
Proof.
  induction s as [|c s [p IH]]; simpl; [exists []; reflexivity|].
  destruct (isspace c).
  - exists (c :: p). simpl. congruence.
  - exists []. reflexivity.
Qed.

Lemma rstrip_prefix s : exists q, s = rstrip s ++ q.
Proof.
  unfold rstrip. destruct (lstrip_suffix (rev s)) as [p E].
  exists (rev p). rewrite <- rev_app_distr, <- E, rev_involutive. reflexivity.
Qed.

Lemma strip_trimmed s : trimmed (strip s).
Proof.
  unfold trimmed, strip. split.
  - pose proof (lstrip_starts_clean s) as Hl.
    destruct (rstrip_prefix (lstrip s)) as [q E].
    destruct (rstrip (lstrip s)) as [|c r]; [exact I|].
    rewrite E in Hl. exact Hl.
  - unfold rstrip. rewrite rev_involutive. apply lstrip_starts_clean.
Qed.

Lemma blank_collapsed_cons c r :
  blank_collapsed (c :: r) =
  negb (is_char "009" c)
  && match r with
     | c' :: _ => negb (is_blank c && is_blank c')
     | [] => true
     end
  && blank_collapsed r.
Proof. reflexivity. Qed.

Lemma is_blank_tab c : is_blank c = false -> is_char "009" c = false.
Proof. by_cases_on_char c. Qed.

Lemma re_sub_blanks_head s :
  match re_sub_blanks s, s with
  | c' :: _, c :: _ => if is_blank c then c' = " "%char else c' = c
  | [], [] => True
  | _, _ => False
  end.
Proof.
  induction s as [|c r IH]; [exact I|]. cbn [re_sub_blanks].
  destruct (is_blank c) eqn:Hc.
  - destruct r as [|c2 r2]; [reflexivity|].
    destruct (is_blank c2) eqn:Hc2; [|reflexivity].
    destruct (re_sub_blanks (c2 :: r2)); [contradiction|].
    exact IH.
  - reflexivity.
Qed.

(** After the substitution no tab is left and no two spaces follow each
    other. *)
Lemma re_sub_blanks_collapsed s : blank_collapsed (re_sub_blanks s) = true.
Proof.
  induction s as [|c r IH]; [reflexivity|]. cbn [re_sub_blanks].
  pose proof (re_sub_blanks_head r) as Hh.
  destruct (is_blank c) eqn:Hc.
  - destruct r as [|c2 r2]; [reflexivity|].
    destruct (is_blank c2) eqn:Hc2; [exact IH|].
    rewrite blank_collapsed_cons, IH.
    destruct (re_sub_blanks (c2 :: r2)) as [|c' r']; [reflexivity|].
    cbv beta iota in Hh. subst c'. rewrite Hc2. reflexivity.
  - rewrite blank_collapsed_cons, IH, (is_blank_tab c Hc), Hc.
    destruct (re_sub_blanks r); reflexivity.
Qed.

Lemma blank_collapsed_app_r p s : blank_collapsed (p ++ s) = true -> blank_collapsed s = true.
Proof.
  induction p as [|c p IH]; [trivial|]. simpl app. rewrite blank_collapsed_cons.
  rewrite !andb_true_iff. intros [_ Hr]. apply IH, Hr.
Qed.

Lemma blank_collapsed_app_l s q : blank_collapsed (s ++ q) = true -> blank_collapsed s = true.
Proof.
  induction s as [|c s IH]; [reflexivity|]. simpl app. rewrite !blank_collapsed_cons.
  rewrite !andb_true_iff. intros [[Ht Hn] Hr]. repeat split; [exact Ht| |apply IH, Hr].
  destruct s as [|c' s']; [reflexivity|exact Hn].
Qed.

Lemma strip_blank_collapsed s : blank_collapsed s = true -> blank_collapsed (strip s) = true.
Proof.
  intros Hs. unfold strip.
  destruct (lstrip_suffix s) as [p Ep]. rewrite Ep in Hs. apply blank_collapsed_app_r in Hs.
  destruct (rstrip_prefix (lstrip s)) as [q Eq]. rewrite Eq in Hs.
  apply blank_collapsed_app_l in Hs. exact Hs.
Qed.

(** ** Soft failure of the details *)

Lemma with_details_same pg : with_details (details_text pg) pg = pg.
Proof. destruct pg; reflexivity. Qed.

Section Details.
Context `{PyFloat}.

Lemma run_set_details on_url browser w d :
  soft d -> soft (details_text (site w on_url)) ->
  (extract_product_info on_url browser (set_details d w)).1 =
  (extract_product_info on_url browser w).1.
Proof.
  intros Hd Hw. rewrite !extract_product_info_run. unfold run_of.
  cbn [set_details trace site].
  destruct (session_of browser (trace w)) as [b tr2].
  destruct (browser_closed b tr2); [reflexivity|].
  change (goto_outcome (with_details d (site w on_url))) with (goto_outcome (site w on_url)).
  destruct (goto_outcome (site w on_url)); [|reflexivity].
  rewrite (page_record_details on_url (site w on_url) d _ Hd Hw), with_details_same.
  destruct (page_record on_url (site w on_url)); reflexivity.
Qed.
End Details.

(** C7 (amended): when the details content is absent within its timeout the
    details are null and the step does not raise; when it is present, each
    run of spaces and tabs becomes one space (line breaks stay) and the text
    is trimmed; and the outcome of the task is the same whether the details
    are absent or present, so the timeout never leaves the task. *)
Theorem c7_details_soft_failure `{PyFloat} (w : World) (p : Page) (url : str) :
  page_url p (trace w) = Some url ->
  (details_text (site w url) = Raise TimeoutError ->
     extract_details p w = (Ok None, w)) /\
  (forall d, details_text (site w url) = Ok d ->
     extract_details p w = (Ok (Some (strip (re_sub_blanks d))), w) /\
     blank_collapsed (strip (re_sub_blanks d)) = true /\
     trimmed (strip (re_sub_blanks d))) /\
  (forall on_url browser d1 d2, soft d1 -> soft d2 ->
     (extract_product_info on_url browser (set_details d1 w)).1 =
     (extract_product_info on_url browser (set_details d2 w)).1).
Proof.
  intros Hp. split; [|split].
  - intros Hd. rewrite (extract_details_run p url w Hp). unfold details_of. rewrite Hd. reflexivity.
  - intros d Hd. split; [|split].
    + rewrite (extract_details_run p url w Hp). unfold details_of. rewrite Hd. reflexivity.
    + apply strip_blank_collapsed, re_sub_blanks_collapsed.
    + apply strip_trimmed.
  - intros on_url browser d1 d2 H1 H2. apply run_details; assumption.
Qed.

Lemma c7_details_soft_failure_witness :
  let w := {| site := fun _ => with_details (Raise TimeoutError) milk_page;
              trace := [EvGoto (H := demo_float) 0 (s_ "https://shop/p/1")] |} in
  extract_details 0 w = (Ok None, w).
Proof.
  intros w.
  apply (c7_details_soft_failure (H := demo_float) w 0%nat (s_ "https://shop/p/1"));
    reflexivity.
Defined.

(** C7 as stated fails where the details hold line breaks: they are
    whitespace, and stay as they are. *)
Lemma c7_counterexample :
  let d := s_ "a" ++ [newline; newline] ++ s_ "b" in
  let w := {| site := fun _ => with_details (Ok d) milk_page;
              trace := [EvGoto (H := demo_float) 0 (s_ "https://shop/p/1")] |} in
  (extract_details 0 w).1 = Ok (Some d) /\ ws_collapsed d = false.
Proof. split; vm_compute; reflexivity. Qed.

(** ** The record *)

(** C10: a successful run returns the seven keys name, quantity, price,
    images, barcode, labels and store_url, store_url is the input URL, and
    the details are no part of the record: there is no such key, and the
    record is the same whatever the details content. *)
Theorem c10_record_keys `{PyFloat} (on_url : str) (browser : option Browser)
    (w w' : World) (data : record) :
  extract_product_info on_url browser w = (Ok data, w') ->
  keys data = ["name"; "quantity"; "price"; "images"; "barcode"; "labels"; "store_url"]%string /\
  get data "store_url" = Some (VStr on_url) /\
  get data "details" = None /\
  (forall d, soft d -> (extract_product_info on_url browser (set_details d w)).1 = Ok data).
Proof.
  intros Hrun. pose proof (run_ok_record _ _ _ _ _ Hrun) as Hrec.
  destruct (page_record_keys _ _ _ Hrec) as (Hk & Hu & Hd).
  repeat split; try assumption.
  intros d Hsoft. rewrite run_set_details, Hrun; [reflexivity|exact Hsoft|].
  unfold page_record in Hrec.
  destruct (name_text (site w on_url)); cbn [mbind result_bind] in Hrec; [|discriminate].
  destruct (image_srcs (site w on_url)); cbn [mbind result_bind] in Hrec; [|discriminate].
  destruct (split_name_quantity a); cbn [mbind result_bind] in Hrec; [|discriminate].
  destruct (sku_text (site w on_url)); cbn [mbind result_bind] in Hrec; [|discriminate].
  destruct (barcode_of_sku a2); cbn [mbind result_bind] in Hrec; [|discriminate].
  unfold details_of in Hrec.
  destruct (details_text (site w on_url)) as [?|[]]; try exact I; discriminate.
Qed.

Lemma c10_record_keys_witness :
  let url := s_ "https://shop/p/1" in
  (extract_product_info (H := demo_float) url None
     (set_details (Raise TimeoutError) (serving milk_page))).1
  = Ok (milk_record url).
Proof.
  intros url.
  refine (proj2 (proj2 (proj2
    (c10_record_keys (H := demo_float) url None (serving milk_page) (served milk_page url)
       (milk_record url) _))) (Raise TimeoutError) I).
  vm_compute. reflexivity.
Defined.

(** ** The session *)

Section Session.
Context `{PyFloat}.

(** A session that was passed in is never closed by the task. *)
Lemma supplied_session_never_closed on_url b w :
  exists evs,
    trace (extract_product_info on_url (Some b) w).2 = evs ++ trace w /\
    Forall (fun e => is_close_browser e = false) evs.
Proof.
  destruct (run_trace on_url (Some b) w) as (evs & E & _ & Hc).
  exists evs. split; [exact E|]. exact (Hc b eq_refl).
Qed.

(** The session the task opened is closed when the task returns. *)
Lemma own_session_closed_on_success on_url w data w' :
  extract_product_info on_url None w = (Ok data, w') ->
  exists b evs,
    trace w' = EvCloseBrowser b :: evs ++ trace w /\
    In (EvLaunch b) evs /\ browser_closed b (trace w') = true.
Proof.
  rewrite extract_product_info_run. unfold run_of, session_of.
  set (tr1 := EvRateLimit "tops_website" :: trace w).
  set (b := length (List.filter is_launch tr1)).
  destruct (browser_closed b (EvLaunch b :: tr1)); [discriminate|].
  destruct (goto_outcome (site w on_url)); [|discriminate].
  destruct (page_record on_url (site w on_url)); [|discriminate].
  intros [= _ <-]. cbn [with_trace trace closing app].
  eexists b, [_; _; _; _; _]. split; [reflexivity|]. split.
  - simpl. auto.
  - cbn [browser_closed existsb closes]. rewrite Nat.eqb_refl. reflexivity.
Qed.

(** The session the task opened stays open when the task fails. *)
Lemma own_session_left_open_on_failure on_url w e w' :
  extract_product_info on_url None w = (Raise e, w') ->
  let b := length (List.filter is_launch (trace w)) in
  exists evs,
    trace w' = evs ++ trace w /\ In (EvLaunch b) evs /\
    Forall (fun e => is_close_browser e = false) evs.
Proof.
  rewrite extract_product_info_run. unfold run_of, session_of.
  cbn [List.filter is_launch].
  set (b := length (List.filter is_launch (trace w))).
  set (tr1 := EvRateLimit "tops_website" :: trace w).
  destruct (browser_closed b (EvLaunch b :: tr1)).
  { intros [= _ <-]. exists [EvLaunch b; EvRateLimit "tops_website"].
    cbn. repeat split; auto. }
  destruct (goto_outcome (site w on_url)).
  2:{ intros [= _ <-]. eexists [_; _; _]. cbn. repeat split; auto. }
  destruct (page_record on_url (site w on_url)); [discriminate|].
  intros [= _ <-]. eexists [_; _; _; _]. cbn. repeat split; auto.
Qed.
End Session.

(** C4: on every exit path the task closes the session it opened itself, and
    never a session it was given.  The code closes its own session on
    success only: on a page whose price does not parse the task fails with
    [ValueError] and the browser it launched stays open. *)
Theorem c4_own_session_left_open_on_failure :
  let url := s_ "https://shop/p/1" in
  let w := serving (H := demo_float) (with_price (Ok (s_ "N/A")) milk_page) in
  let run := extract_product_info url None w in
  run.1 = Raise ValueError /\
  trace run.2 = [EvGoto 0 url; EvNewPage 0 0; EvLaunch 0; EvRateLimit "tops_website"] /\
  browser_closed 0 (trace run.2) = false.
Proof. split; [|split]; vm_compute; reflexivity. Qed.

(** ** A price that does not parse *)

Section TaskFacts.
Context `{PyFloat}.

Lemma body_fails url browser w :
  bad_price w url -> exists e, (extract_product_info url browser w).1 = Raise e.
Proof.
  intros (txt & Hp & Hf). rewrite extract_product_info_run. unfold run_of.
  destruct (session_of browser (trace w)) as [b tr2].
  destruct (browser_closed b tr2); [eauto|].
  destruct (goto_outcome (site w url)); [|eauto].
  destruct (page_record_bad_price url _ _ Hp Hf) as [e ->]. eauto.
Qed.

Lemma plain_not_task_run url evs :
  Forall (fun e => plain e = true) evs -> task_runs url evs = 0%nat.
Proof.
  induction 1 as [|e evs He _ IH]; [reflexivity|].
  unfold task_runs in *. cbn [List.filter]. destruct e; try discriminate He; exact IH.
Qed.

Lemma task_runs_app url evs tr : task_runs url (evs ++ tr) = (task_runs url evs + task_runs url tr)%nat.
Proof. unfold task_runs. rewrite List.filter_app, length_app. reflexivity. Qed.

Lemma plain_not_written evs tr :
  Forall (fun e => plain e = true) evs -> written (evs ++ tr) = written tr.
Proof.
  induction 1 as [|e evs He _ IH]; [reflexivity|].
  unfold written in *. cbn [app flat_map]. destruct e; try discriminate He; exact IH.
Qed.

Lemma task_run_unfold {A} n url (body : M A) w :
  task_run n url body w =
    match body (started url w) with
    | (Ok a, w') => (Ok a, w')
    | (Raise e, w') =>
        match n with
        | O => (Raise e, w')
        | S n' => task_run n' url body w'
        end
    end.
Proof. destruct n; reflexivity. Qed.

(** What the decorated task does to the world, whatever its outcome. *)
Lemma task_world url w :
  site (extract_product_info_task url w).2 = site w /\
  written (trace (extract_product_info_task url w).2) = written (trace w).
Proof.
  unfold extract_product_info_task. rewrite task_run_unfold.
  pose proof (run_site url None (started url w)) as Hs1.
  destruct (run_trace url None (started url w)) as (evs1 & Ht1 & Hp1 & _).
  destruct (extract_product_info url None (started url w)) as [[a|e] w1];
    cbn [fst snd] in *.
  { split; [exact Hs1|]. rewrite Ht1, plain_not_written by exact Hp1. reflexivity. }
  rewrite task_run_unfold.
  pose proof (run_site url None (started url w1)) as Hs2.
  destruct (run_trace url None (started url w1)) as (evs2 & Ht2 & Hp2 & _).
  assert (Hw : written (trace (extract_product_info url None (started url w1)).2)
               = written (trace w)).
  { rewrite Ht2, plain_not_written by exact Hp2. cbn [started trace].
    change (written (EvTaskRun url :: trace w1)) with (written (trace w1)).
    rewrite Ht1, plain_not_written by exact Hp1. reflexivity. }
  destruct (extract_product_info url None (started url w1)) as [[a|e'] w2];
    cbn [fst snd] in *; (split; [rewrite Hs2; exact Hs1|exact Hw]).
Qed.

(** On a page whose price does not parse the task runs twice and fails. *)
Lemma task_fails url w :
  bad_price w url ->
  exists e,
    (extract_product_info_task url w).1 = Raise e /\
    task_runs url (trace (extract_product_info_task url w).2)
    = (2 + task_runs url (trace w))%nat.
Proof.
  intros Hbad. unfold extract_product_info_task. rewrite task_run_unfold.
  destruct (body_fails url None (started url w) Hbad) as [e1 He1].
  pose proof (run_site url None (started url w)) as Hs1.
  destruct (run_trace url None (started url w)) as (evs1 & Ht1 & Hp1 & _).
  destruct (extract_product_info url None (started url w)) as [r1 w1];
    cbn [fst snd] in *. subst r1. rewrite task_run_unfold.
  assert (Hbad1 : bad_price (started url w1) url) by (unfold bad_price; cbn [started site]; rewrite Hs1; exact Hbad).
  destruct (body_fails url None (started url w1) Hbad1) as [e2 He2].
  destruct (run_trace url None (started url w1)) as (evs2 & Ht2 & Hp2 & _).
  destruct (extract_product_info url None (started url w1)) as [r2 w2];
    cbn [fst snd] in *. subst r2.
  exists e2. split; [reflexivity|]. cbn [snd].
  rewrite Ht2, task_runs_app, (plain_not_task_run url evs2 Hp2).
  cbn [started trace]. rewrite Ht1. cbn [started trace].
  change (EvTaskRun url :: evs1 ++ EvTaskRun url :: trace w)
    with ([EvTaskRun url] ++ evs1 ++ [EvTaskRun url] ++ trace w).
  rewrite !task_runs_app, (plain_not_task_run url evs1 Hp1).
  unfold task_runs at 1 2. cbn [List.filter length].
  rewrite bool_decide_true by reflexivity. reflexivity.
Qed.

Lemma futures_result_fails {A} (rs : list (result A)) :
  Exists (fun r => exists e, r = Raise e) rs -> exists e, futures_result rs = Raise e.
Proof.
  unfold futures_result. induction 1 as [r rs [e ->]|r rs _ [e IH]]; cbn [result_mapM].
  - eauto.
  - destruct r as [a|e']; cbn [mbind result_bind]; [|eauto]. rewrite IH. eauto.
Qed.

(** The fan-out runs every link; the futures of the links whose price does
    not parse have failed, and nothing was written. *)
Lemma task_map_fails links w url :
  url ∈ links -> bad_price w url ->
  exists rs w',
    task_map extract_product_info_task links w = (Ok rs, w') /\
    Exists (fun r => exists e, r = Raise e) rs /\
    written (trace w') = written (trace w).
Proof.
  assert (Hall : forall links w, exists rs w',
            task_map extract_product_info_task links w = (Ok rs, w') /\
            site w' = site w /\ written (trace w') = written (trace w)).
  { clear. induction links as [|l links IH]; intros w; cbn [task_map].
    - exists [], w. auto.
    - destruct (task_world l w) as [Hs Hw].
      destruct (extract_product_info_task l w) as [r w1]; cbn [snd] in *.
      destruct (IH w1) as (rs & w' & -> & Hs' & Hw').
      exists (r :: rs), w'. repeat split; congruence. }
  intros Hin. revert w. induction Hin as [url links|url l links Hin IH]; intros w Hbad.
  - cbn [task_map]. destruct (task_fails url w Hbad) as (e & He & _).
    destruct (task_world url w) as [Hs Hw].
    destruct (extract_product_info_task url w) as [r w1]; cbn [fst snd] in *. subst r.
    destruct (Hall links w1) as (rs & w' & -> & Hs' & Hw').
    exists (Raise e :: rs), w'. split; [reflexivity|]. split; [left; eauto|congruence].
  - cbn [task_map]. destruct (task_world l w) as [Hs Hw].
    destruct (extract_product_info_task l w) as [r w1]; cbn [snd] in *.
    assert (Hbad1 : bad_price w1 url) by (unfold bad_price; rewrite Hs; exact Hbad).
    destruct (IH w1 Hbad1) as (rs & w' & -> & Hex & Hw').
    exists (r :: rs), w'. split; [reflexivity|]. split; [right; exact Hex|congruence].
Qed.

Lemma get_products_unfold links output_file w :
  get_products links output_file w =
    match task_map extract_product_info_task links w with
    | (Ok rs, w') =>
        match futures_result rs with
        | Ok products => write_results output_file products w'
        | Raise e => (Raise e, w')
        end
    | (Raise e, w') => (Raise e, w')
    end.
Proof.
  unfold get_products, mbind, M_bind, lift.
  destruct (task_map extract_product_info_task links w) as [[rs|e] w']; [|reflexivity].
  destruct (futures_result rs); reflexivity.
Qed.
End TaskFacts.

(** C5: a product page whose price text does not parse as a float makes the
    task fail instead of returning a record; the task is run again once, and
    fails for good; the flow then raises and writes nothing, so no record of
    that page reaches the output. *)
Theorem c5_malformed_price_fails_task `{PyFloat} (w : World) (links : list str)
    (url txt : str) (output_file : string) :
  url ∈ links ->
  price_text (site w url) = Ok txt ->
  float_of_str txt = None ->
  (forall browser w0, site w0 = site w ->
     exists e, (extract_product_info url browser w0).1 = Raise e) /\
  (forall name images nq sku barcode,
     goto_outcome (site w url) = Ok tt ->
     name_text (site w url) = Ok name -> image_srcs (site w url) = Ok images ->
     split_name_quantity name = Ok nq ->
     sku_text (site w url) = Ok sku -> barcode_of_sku sku = Ok barcode ->
     soft (details_text (site w url)) -> trace w = [] ->
     (extract_product_info url None w).1 = Raise ValueError) /\
  (exists e,
     (extract_product_info_task url w).1 = Raise e /\
     task_runs url (trace (extract_product_info_task url w).2)
     = (2 + task_runs url (trace w))%nat) /\
  (exists e, (get_products links output_file w).1 = Raise e) /\
  written (trace (get_products links output_file w).2) = written (trace w).
Proof.
  intros Hin Hp Hf.
  assert (Hbad : bad_price w url) by (exists txt; auto).
  split; [|split; [|split]].
  - intros browser w0 Hs. apply body_fails. unfold bad_price. rewrite Hs. exact Hbad.
  - intros name images nq sku barcode Hg Hn Hi Hq Hs Hb Hd Ht.
    rewrite extract_product_info_run. unfold run_of, session_of. rewrite Ht. cbn.
    rewrite Hg.
    rewrite (page_record_bad_price_value_error url _ name images nq sku barcode txt);
      auto.
  - apply task_fails, Hbad.
  - destruct (task_map_fails links w url Hin Hbad) as (rs & w' & Hm & Hex & Hw).
    destruct (futures_result_fails rs Hex) as [e He].
    rewrite get_products_unfold, Hm, He. cbn [fst snd]. split; [eauto|exact Hw].
Qed.

Lemma c5_malformed_price_fails_task_witness :
  let w := serving (H := demo_float) (with_price (Ok (s_ "N/A")) milk_page) in
  let url := s_ "https://shop/p/1" in
  exists e, (get_products [url] "products.jsonl" w).1 = Raise e.
Proof.
  intros w url.
  refine (proj1 (proj2 (proj2 (proj2
    (c5_malformed_price_fails_task (H := demo_float) w [url] url (s_ "N/A") "products.jsonl" _ _ _))))).
  - apply list_elem_of_here.
  - reflexivity.
  - reflexivity.
Defined.

(** ** The stabilization loop *)

Lemma deque_count_plateau (d : list nat) (x : nat) :
  (length d <= 3)%nat ->
  (deque_count d x <? 3)%nat = false <->
  length d = 3%nat /\ Forall (fun n => n = x) d.
Proof.
  intros Hlen. rewrite Nat.ltb_ge. unfold deque_count.
  destruct d as [|a [|b [|c [|e d]]]]; cbn [length] in Hlen; try lia; cbn [count_occ length].
  all: repeat match goal with |- context [Nat.eq_dec ?u ?v] => destruct (Nat.eq_dec u v) end.
  all: split; [intros Hc; try lia|intros [Hl Hall]; try discriminate Hl].
  all: try (split; [reflexivity|]; subst; repeat constructor).
  all: try lia.
  all: repeat match goal with Hf : Forall _ (_ :: _) |- _ => inversion Hf; clear Hf; subst end;
       congruence.
Qed.

Section Loop.
Context `{ListingSite}.

Lemma after_rounds_S n s : after_rounds (S n) s = scroll_round (after_rounds n s).
Proof. reflexivity. Qed.

Lemma after_rounds_shift n s : after_rounds (S n) s = after_rounds n (scroll_round s).
Proof. unfold after_rounds. apply Nat.iter_succ_r. Qed.

Lemma scroll_round_total s : total_wait_time (scroll_round s) = total_wait_time s + 2000.
Proof. unfold scroll_round, scroll_step, wait_time. cbn [total_wait_time]. lia. Qed.

Lemma after_rounds_total n s :
  total_wait_time (after_rounds n s) = total_wait_time s + 2000 * Z.of_nat n.
Proof.
  induction n as [|n IH]; [simpl; lia|].
  rewrite after_rounds_S, scroll_round_total, IH. lia.
Qed.

Lemma scroll_round_counts s :
  product_counts (scroll_round s)
  = deque_append 3 (product_counts s) (last_product_count (scroll_round s)).
Proof. reflexivity. Qed.

Lemma samples_S s0 k :
  samples s0 (S k) = samples s0 k ++ [last_product_count (after_rounds (S k) s0)].
Proof. unfold samples. rewrite seq_S, map_app. reflexivity. Qed.

Lemma samples_length s0 k : length (samples s0 k) = k.
Proof. unfold samples. rewrite length_map, length_seq. reflexivity. Qed.

(** The ring buffer holds the latest samples, three at most. *)
Lemma ring_buffer_contents s0 k :
  product_counts s0 = [] ->
  product_counts (after_rounds k s0) = drop (k - 3) (samples s0 k).
Proof.
  intros H0. induction k as [|k IH]; [exact H0|].
  rewrite after_rounds_S, scroll_round_counts, IH, samples_S.
  rewrite <- after_rounds_S. unfold deque_append.
  set (x := last_product_count (after_rounds (S k) s0)).
  rewrite length_app, length_drop, samples_length. cbn [length].
  destruct (le_lt_dec 3 k) as [Hk|Hk].
  - replace (k - (k - 3) + 1 - 3)%nat with 1%nat by lia.
    rewrite <- (drop_app_le (samples s0 k) [x]) by (rewrite samples_length; lia).
    rewrite drop_drop. f_equal. lia.
  - replace (k - (k - 3) + 1 - 3)%nat with 0%nat by lia.
    replace (k - 3)%nat with 0%nat by lia. replace (S k - 3)%nat with 0%nat by lia.
    reflexivity.
Qed.

Lemma ring_buffer_length s0 k :
  product_counts s0 = [] -> (length (product_counts (after_rounds k s0)) <= 3)%nat.
Proof.
  intros H0. rewrite (ring_buffer_contents s0 k H0), length_drop, samples_length. lia.
Qed.

(** The loop stops on a plateau, or when the waits it counted reach the
    budget. *)
Lemma keep_scrolling_stop s :
  (length (product_counts s) <= 3)%nat ->
  keep_scrolling s = false <-> plateau s \/ max_wait_time <= total_wait_time s.
Proof.
  intros Hlen. unfold keep_scrolling, plateau.
  rewrite andb_false_iff, (deque_count_plateau _ _ Hlen), Z.ltb_ge. reflexivity.
Qed.

(** With fuel for the budget that is left, the loop returns: it ran the
    rounds up to the first state that stops it. *)
Lemma scroll_loop_returns fuel s :
  max_wait_time - total_wait_time s <= 2000 * Z.of_nat fuel ->
  exists n,
    (n <= fuel)%nat /\
    scroll_loop fuel s = Some (after_rounds n s) /\
    keep_scrolling (after_rounds n s) = false /\
    (forall k, (k < n)%nat -> keep_scrolling (after_rounds k s) = true).
Proof.
  revert s. induction fuel as [|fuel IH]; intros s Hfuel.
  - exists 0%nat. cbn [scroll_loop after_rounds Nat.iter].
    assert (Hk : keep_scrolling s = false).
    { unfold keep_scrolling. apply andb_false_iff. right. apply Z.ltb_ge. lia. }
    rewrite Hk. repeat split; [lia|exact Hk|intros k Hlt; lia].
  - cbn [scroll_loop]. destruct (keep_scrolling s) eqn:Hk.
    + destruct (IH (scroll_round s)) as (n & Hn & Hrun & Hstop & Hbefore).
      { rewrite scroll_round_total. lia. }
      exists (S n). rewrite after_rounds_shift. repeat split; [lia|exact Hrun|exact Hstop|].
      intros [|k] Hlt; [exact Hk|]. rewrite after_rounds_shift. apply Hbefore. lia.
    + exists 0%nat. repeat split; [lia|exact Hk|intros k Hlt; lia].
Qed.
End Loop.


Section Settling.
#[local] Existing Instance settling_site.


(** The listing of the specification's test: it settles at 42, and the loop
    returns after the third sample of 42, in five rounds. *)
Example settling_site_returns :
  option_map (fun s => (product_counts s, total_wait_time s))
    (scroll_loop 150 (initial_state (s_ "https://shop/c/1")))
  = Some ([42; 42; 42]%nat, 10000).
Proof. vm_compute. reflexivity. Qed.
End Settling.

Section Growing.
#[local] Existing Instance growing_site.

End Growing.

(** ** Flattening between the stages *)

Lemma chain_from_iterable_concat {A} (xss : list (list A)) :
  chain_from_iterable xss = concat xss.
Proof.
  induction xss as [|xs rest IH]; [reflexivity|].
  cbn [chain_from_iterable concat]. rewrite <- IH.
  induction xs as [|x xs IHxs]; [reflexivity|].
  cbn [app]. f_equal. exact IHxs.
Qed.

Section FanOutFacts.
Context {X Y : Type} (f : X -> Y) (inputs : list X).

Lemma complete_lookup (done : gmap nat Y) (j i : nat) :
  complete f inputs done j !! i =
    if decide (j = i) then
      match inputs !! i with
      | Some x => Some (f x)
      | None => done !! i
      end
    else done !! i.
Proof.
  unfold complete. destruct (decide (j = i)) as [->|Hne].
  - destruct (inputs !! i); [apply lookup_insert_eq|reflexivity].
  - destruct (inputs !! j); [apply lookup_insert_ne, Hne|reflexivity].
Qed.

(** A future holds the result of its own input once its run is over,
    whenever that was. *)
Lemma run_schedule_lookup (sched : list nat) (done : gmap nat Y) (i : nat) (x : X) :
  i ∈ sched -> inputs !! i = Some x ->
  foldl (complete f inputs) done sched !! i = Some (f x).
Proof.
  intros Hin Hx. revert done.
  induction sched as [|j sched IH]; intros done; [inversion Hin|].
  cbn [foldl]. destruct (decide (i ∈ sched)) as [Hi|Hi]; [apply IH, Hi|].
  assert (j = i) as -> by (inversion Hin; subst; [reflexivity|contradiction]).
  clear IH Hin.
  assert (Hkeep : forall m, m !! i = Some (f x) ->
            foldl (complete f inputs) m sched !! i = Some (f x)).
  { clear Hi. induction sched as [|j sched IH]; intros m Hm; [exact Hm|].
    cbn [foldl]. apply IH. rewrite complete_lookup.
    destruct (decide (j = i)); [rewrite Hx; reflexivity|exact Hm]. }
  apply Hkeep. rewrite complete_lookup, decide_True, Hx by reflexivity. reflexivity.
Qed.

Lemma collect_all (done : gmap nat Y) (rest : list X) (offset : nat) :
  (forall j x, rest !! j = Some x -> done !! (offset + j)%nat = Some (f x)) ->
  mapM (fun i => done !! i) (seq offset (length rest)) = Some (map f rest).
Proof.
  revert offset. induction rest as [|x rest IH]; intros offset Hdone; [reflexivity|].
  cbn [length seq map]. apply mapM_Some. constructor.
  - rewrite <- (Hdone 0%nat x eq_refl). f_equal. lia.
  - apply mapM_Some, IH. intros j y Hj.
    rewrite <- (Hdone (S j) y Hj). f_equal. lia.
Qed.

(** The results of a fan-out are in the order of its inputs, in whatever
    order the runs were over. *)
Lemma map_result_in_input_order (sched : list nat) :
  sched ≡ₚ seq 0 (length inputs) -> map_result f inputs sched = Some (map f inputs).
Proof.
  intros Hperm. unfold map_result, collect, run_schedule.
  apply collect_all. intros j x Hj. cbn [Nat.add].
  apply run_schedule_lookup; [|exact Hj].
  rewrite Hperm. apply elem_of_seq. apply lookup_lt_Some in Hj. lia.
Qed.
End FanOutFacts.

(** C8: between the stages the nested results are flattened into one list,
    the lists of the inputs one after the other in input order, whatever the
    order in which the runs completed; [[a,b],[c]] becomes [a,b,c]. *)
Theorem c8_flatten_in_input_order {X Y : Type} (f : X -> list Y) (inputs : list X)
    (sched : list nat) :
  sched ≡ₚ seq 0 (length inputs) ->
  (forall xss : list (list Y), chain_from_iterable xss = concat xss) /\
  chain_from_iterable <$> map_result f inputs sched = Some (concat (map f inputs)) /\
  (forall a b c : Y, chain_from_iterable [[a; b]; [c]] = [a; b; c]).
Proof.
  intros Hperm. split; [apply chain_from_iterable_concat|]. split; [|reflexivity].
  rewrite (map_result_in_input_order f inputs sched Hperm). cbn.
  rewrite chain_from_iterable_concat. reflexivity.
Qed.

Lemma c8_flatten_in_input_order_witness :
  chain_from_iterable <$>
    map_result (fun n : nat => repeat n n) [2; 0; 1]%nat [1; 2; 0]%nat
  = Some [2; 2; 1]%nat.
Proof.
  refine (proj1 (proj2 (c8_flatten_in_input_order
    (fun n : nat => repeat n n) [2; 0; 1]%nat [1; 2; 0]%nat _))).
  cbn. symmetry. apply (Permutation_cons_append [1; 2]%nat 0%nat).
Defined.

(** The two flattenings of [main]: the product links follow the order of the
    seeds, then of each seed's categories. *)
Lemma crawl_links_in_input_order find_category find_product nav_links sched1 sched2 :
  sched1 ≡ₚ seq 0 (length nav_links) ->
  sched2 ≡ₚ seq 0 (length (concat (map find_category nav_links))) ->
  crawl_links find_category find_product nav_links sched1 sched2
  = Some (concat (map find_product (concat (map find_category nav_links)))).
Proof.
  intros H1 H2. unfold crawl_links.
  rewrite (map_result_in_input_order find_category nav_links sched1 H1). cbn.
  rewrite chain_from_iterable_concat.
  rewrite (map_result_in_input_order find_product _ sched2 H2). cbn.
  rewrite chain_from_iterable_concat. reflexivity.
Qed.

(** ** The cache fingerprint *)

Import CachePolicy.

Lemma my_custom_policy_members : my_custom_policy = [TaskSource; Inputs ["browser"%string]].
Proof. reflexivity. Qed.

Lemma call_inputs_without_browser on_url browser :
  filter (fun kv : string * arg => kv.1 ∉ ["browser"%string]) (call_inputs on_url browser)
  = {[ "on_url"%string := ArgStr on_url ]}.
Proof.
  unfold call_inputs. apply map_eq. intros k.
  rewrite map_lookup_filter.
  destruct (decide (k = "on_url"%string)) as [->|Hu].
  - rewrite lookup_insert_eq, lookup_singleton_eq. cbn.
    rewrite option_guard_True; [reflexivity|].
    intros Hin. apply list_elem_of_singleton in Hin. discriminate.
  - rewrite lookup_insert_ne by congruence.
    rewrite (lookup_singleton_ne "on_url"%string k) by congruence.
    destruct (decide (k = "browser"%string)) as [->|Hb].
    + rewrite lookup_singleton_eq. cbn. rewrite option_guard_False; [reflexivity|].
      intros Hn. apply Hn, list_elem_of_singleton. reflexivity.
    + rewrite lookup_singleton_ne by congruence. reflexivity.
Qed.

Lemma call_inputs_nonempty on_url browser : call_inputs on_url browser <> ∅.
Proof.
  unfold call_inputs. intros E.
  apply (f_equal (fun m => m !! "on_url"%string)) in E.
  rewrite lookup_insert_eq, lookup_empty in E. discriminate.
Qed.

(** C9: the fingerprint of a call of [extract_product_info] leaves the
    session out: it is made of the task source and the URL alone, so two
    calls with the same URL have the same fingerprint whichever sessions they
    are given. *)
Theorem c9_fingerprint_ignores_session `{Hasher} (source on_url : str)
    (browser1 browser2 : option Browser) :
  compute_key my_custom_policy source (call_inputs on_url browser1)
  = compute_key my_custom_policy source (call_inputs on_url browser2) /\
  compute_key my_custom_policy source (call_inputs on_url browser1)
  = Some (hash_keys [hash_source source;
                     hash_inputs {[ "on_url"%string := ArgStr on_url ]}]).
Proof.
  assert (Hkey : forall browser,
            compute_key my_custom_policy source (call_inputs on_url browser)
            = Some (hash_keys [hash_source source;
                               hash_inputs {[ "on_url"%string := ArgStr on_url ]}])).
  { intros browser. rewrite my_custom_policy_members.
    unfold compute_key. cbn [omap list_omap member_key].
    rewrite bool_decide_false by apply call_inputs_nonempty.
    rewrite call_inputs_without_browser. reflexivity. }
  split; [rewrite !Hkey; reflexivity|apply Hkey].
Qed.

(** * Further properties

    Properties of the code beyond the specification's claims. *)

(** ** The validator *)

Lemma is_valid_ean13_cases s :
  (~ (length s = 13%nat /\ Forall (fun c => isdigit c = true) s) /\
   is_valid_ean13 s = Ok false) \/
  (length s = 13%nat /\ Forall (fun c => isdecimal c = true) s /\
   is_valid_ean13 s = Ok (check_digit_matches s)) \/
  (length s = 13%nat /\ Forall (fun c => isdigit c = true) s /\
   Exists (fun c => isdecimal c = false) s /\
   is_valid_ean13 s = Raise ValueError).
Proof.
  destruct (decide (length s = 13%nat /\ Forall (fun c => isdigit c = true) s)) as [[Hl Hd]|Hn].
  - right. destruct (decide (Forall (fun c => isdecimal c = true) s)) as [Hdec|Hnd].
    + left. auto using is_valid_ean13_decimal.
    + right. apply not_Forall_Exists in Hnd; [|intros c; apply _].
      assert (Hx : Exists (fun c => isdecimal c = false) s).
      { eapply Exists_impl; [exact Hnd|]. intros c Hc. cbn in Hc.
        destruct (isdecimal c); [contradiction|reflexivity]. }
      auto using is_valid_ean13_raises.
  - left. auto using is_valid_ean13_rejects.
Qed.

Lemma isdecimal_digit_val c : isdecimal c = true -> 0 <= digit_val c <= 9.
Proof.
  unfold isdecimal, between, digit_val. rewrite andb_true_iff, !N.leb_le. lia.
Qed.

Lemma digit_val_inj c1 c2 : digit_val c1 = digit_val c2 -> c1 = c2.
Proof.
  unfold digit_val, ord. intros E.
  rewrite <- (ascii_N_embedding c1), <- (ascii_N_embedding c2). f_equal. lia.
Qed.

(** X1: on every string whose digit characters are all decimal digits the
    validator returns, without raising, whether the string is thirteen decimal
    digits whose last digit is [(10 - weighted sum of the first twelve) mod
    10]. *)
Theorem x1_is_valid_ean13_on_decimal_text (s : str) :
  Forall (fun c => isdigit c = true -> isdecimal c = true) s ->
  is_valid_ean13 s = Ok (ean13_spec s).
Proof. apply is_valid_ean13_spec. Qed.

Lemma x1_is_valid_ean13_on_decimal_text_witness :
  is_valid_ean13 (s_ "9780306406157") = Ok (ean13_spec (s_ "9780306406157")).
Proof.
  apply x1_is_valid_ean13_on_decimal_text.
  repeat constructor; vm_compute; reflexivity.
Defined.

(** X2: the validator raises exactly on the strings of thirteen digit
    characters of which at least one is no decimal digit (a superscript
    digit), and what it raises is [ValueError]; its own indexing never
    fails. *)
Theorem x2_is_valid_ean13_raises_exactly (s : str) (e : exn) :
  is_valid_ean13 s = Raise e <->
  e = ValueError /\ length s = 13%nat /\
  Forall (fun c => isdigit c = true) s /\ Exists (fun c => isdecimal c = false) s.
Proof.
  destruct (is_valid_ean13_cases s) as [[Hn E]|[(Hl & Hd & E)|(Hl & Hd & Hx & E)]];
    rewrite E; split.
  - discriminate.
  - intros (_ & Hl & Hd & _). exfalso. apply Hn. auto.
  - discriminate.
  - intros (_ & _ & _ & Hx). exfalso.
    apply Exists_exists in Hx as (c & Hc & Hf).
    rewrite Forall_forall in Hd. rewrite (Hd c Hc) in Hf. discriminate.
  - intros [= <-]. auto.
  - intros (-> & _). reflexivity.
Qed.

Lemma weighted_sum12_app p c : length p = 12%nat -> weighted_sum12 (p ++ [c]) = weighted_sum12 p.
Proof.
  intros Hl. unfold weighted_sum12.
  rewrite take_app_le by lia. rewrite !firstn_all2 by lia. reflexivity.
Qed.

Lemma is_valid_ean13_check p c :
  length p = 12%nat -> Forall (fun c => isdecimal c = true) p -> isdecimal c = true ->
  is_valid_ean13 (p ++ [c]) = Ok (digit_val c =? (10 - weighted_sum12 p) mod 10).
Proof.
  intros Hl Hp Hc. rewrite is_valid_ean13_decimal.
  - unfold check_digit_matches. rewrite lookup_app_r by lia.
    rewrite Hl, weighted_sum12_app by exact Hl. reflexivity.
  - rewrite length_app, Hl. reflexivity.
  - apply Forall_app. split; [exact Hp|]. constructor; [exact Hc|constructor].
Qed.

(** X3: every twelve decimal digits have exactly one check digit: one
    decimal digit, and no other, makes them a valid EAN-13. *)
Theorem x3_check_digit_exists_and_is_unique (p : str) :
  length p = 12%nat -> Forall (fun c => isdecimal c = true) p ->
  exists c,
    isdecimal c = true /\ is_valid_ean13 (p ++ [c]) = Ok true /\
    forall c', isdecimal c' = true -> is_valid_ean13 (p ++ [c']) = Ok true -> c' = c.
Proof.
  intros Hl Hp.
  set (d := (10 - weighted_sum12 p) mod 10).
  assert (Hd : 0 <= d < 10) by (apply Z.mod_pos_bound; lia).
  set (c := ascii_of_N (Z.to_N (48 + d))).
  assert (Hord : ord c = Z.to_N (48 + d)).
  { unfold ord, c. apply N_ascii_embedding. lia. }
  assert (Hc : isdecimal c = true).
  { unfold isdecimal, between. rewrite Hord, andb_true_iff, !N.leb_le. lia. }
  assert (Hv : digit_val c = d) by (unfold digit_val; rewrite Hord; lia).
  exists c. split; [exact Hc|]. split.
  - rewrite (is_valid_ean13_check p c Hl Hp Hc). fold d. rewrite Hv, Z.eqb_refl. reflexivity.
  - intros c' Hc' Hvalid. rewrite (is_valid_ean13_check p c' Hl Hp Hc') in Hvalid.
    injection Hvalid as Hvalid. apply Z.eqb_eq in Hvalid. fold d in Hvalid.
    apply digit_val_inj. congruence.
Qed.

Lemma x3_check_digit_exists_and_is_unique_witness :
  exists c,
    isdecimal c = true /\ is_valid_ean13 (s_ "400638133393" ++ [c]) = Ok true /\
    forall c', isdecimal c' = true ->
      is_valid_ean13 (s_ "400638133393" ++ [c']) = Ok true -> c' = c.
Proof.
  apply x3_check_digit_exists_and_is_unique; [reflexivity|].
  repeat constructor; vm_compute; reflexivity.
Defined.

Lemma is_valid_ean13_true s :
  is_valid_ean13 s = Ok true ->
  length s = 13%nat /\ Forall (fun c => isdecimal c = true) s /\ check_digit_matches s = true.
Proof.
  destruct (is_valid_ean13_cases s) as [[Hn E]|[(Hl & Hd & E)|(Hl & Hd & Hx & E)]];
    rewrite E; [discriminate| |discriminate].
  intros [= Hc]. auto.
Qed.

(** X4: the check digit catches every single wrong digit: a valid EAN-13
    with one of its thirteen digits replaced by another decimal digit is
    rejected. *)
Theorem x4_single_digit_error_is_rejected (s : str) (i : nat) (c0 c : ascii) :
  is_valid_ean13 s = Ok true ->
  s !! i = Some c0 -> isdecimal c = true -> c <> c0 ->
  is_valid_ean13 (<[i := c]> s) = Ok false.
Proof.
  intros Hvalid Hi Hc Hne.
  destruct (is_valid_ean13_true s Hvalid) as (Hl & Hd & Hchk).
  assert (Hd' : Forall (fun c => isdecimal c = true) (<[i := c]> s)).
  { apply Forall_insert; assumption. }
  rewrite is_valid_ean13_decimal by (rewrite ?length_insert; assumption).
  f_equal.
  assert (Hv : digit_val c <> digit_val c0) by (intros E; apply Hne, digit_val_inj, E).
  pose proof (isdecimal_digit_val c Hc) as Hb.
  do 14 (destruct s as [|? s]; try discriminate Hl). clear Hl Hvalid Hd'.
  repeat match goal with
         | H : Forall _ (_ :: _) |- _ =>
             let Hx := fresh "Hx" in
             inversion H as [|? ? Hx ?]; clear H; subst;
             apply isdecimal_digit_val in Hx
         end.
  unfold check_digit_matches, weighted_sum12 in *.
  destruct i as [|[|[|[|[|[|[|[|[|[|[|[|[|i]]]]]]]]]]]]]; try discriminate Hi.
  all: injection Hi as <-.
  all: cbn -[digit_val Z.modulo Z.mul Z.add Z.sub Z.eqb] in Hchk |- *.
  all: apply Z.eqb_eq in Hchk; apply Z.eqb_neq; intros Hchk'.
  all: revert Hchk Hchk'; Z.div_mod_to_equations; lia.
Qed.

Lemma x4_single_digit_error_is_rejected_witness :
  is_valid_ean13 (s_ "4006381333961") = Ok false.
Proof.
  apply (x4_single_digit_error_is_rejected (s_ "4006381333931") 11 "3"%char "6"%char);
    [reflexivity|reflexivity|reflexivity|discriminate].
Defined.

(** ** Name and quantity *)

Lemma filter_Forall {A} (f : A -> bool) l : Forall (fun x => f x = true) (List.filter f l).
Proof.
  induction l as [|x l IH]; simpl; [constructor|].
  destruct (f x) eqn:E; [constructor; assumption|exact IH].
Qed.

Lemma split_name_quantity_cases (name : str) :
  exists n q,
    split_name_quantity name = Ok (n, q) /\
    (q <> None <-> has_quantity_suffix name) /\
    (forall t, q = Some t -> Forall (fun c => is_alnum c = true) t) /\
    (q = None -> n = name).
Proof.
  unfold split_name_quantity. rewrite last_re_split_ws.
  destruct (re_search_quantity name) eqn:E; cbn [mbind result_bind mret result_ret].
  - eexists _, _. split; [reflexivity|]. split; [|split].
    + split; [intros _; apply re_search_quantity_spec, E|discriminate].
    + intros t [= <-]. apply filter_Forall.
    + discriminate.
  - exists name, None. split; [reflexivity|]. split; [|split].
    + split; [congruence|]. intros Hs. apply re_search_quantity_spec in Hs. congruence.
    + discriminate.
    + reflexivity.
Qed.

(** X5: the name block never raises; the quantity is non-null exactly when
    the name has the quantity suffix (also before a final newline); a
    quantity holds letters and decimal digits only; and without a quantity
    the name is as it was. *)
Theorem x5_quantity_iff_suffix (name : str) :
  exists n q,
    split_name_quantity name = Ok (n, q) /\
    (q <> None <-> has_quantity_suffix name) /\
    (forall t, q = Some t -> Forall (fun c => is_alnum c = true) t) /\
    (q = None -> n = name).
Proof. apply split_name_quantity_cases. Qed.

Lemma re_split_ws_name_tokens ws ds us :
  clean_words ws -> quantity_suffix ds us ->
  join [" "%char] ws ++ " "%char :: ds ++ us ++ ["."%char]
  = join [" "%char] (ws ++ [ds ++ us ++ ["."%char]]) /\
  re_split_ws (join [" "%char] ws ++ " "%char :: ds ++ us ++ ["."%char])
  = ws ++ [ds ++ us ++ ["."%char]].
Proof.
  intros Hws Hq. destruct (quantity_token ds us Hq) as [Hns _].
  assert (E : join [" "%char] ws ++ " "%char :: ds ++ us ++ ["."%char]
              = join [" "%char] (ws ++ [ds ++ us ++ ["."%char]])).
  { rewrite join_snoc by apply Hws. reflexivity. }
  split; [exact E|]. rewrite E. apply re_split_ws_join.
  destruct Hws as [Hne Hall]. split; [destruct ws; discriminate|].
  apply Forall_app. split; [exact Hall|]. constructor; [|constructor].
  split; [|exact Hns]. destruct Hq as (Hd & _). destruct ds; [congruence|discriminate].
Qed.




Lemma is_newline_isspace c : is_newline c = true -> isspace c = true.
Proof. by_cases_on_char c. Qed.

Lemma no_space_no_newline w :
  no_space w = true -> Forall (fun c => is_newline c = false) w.
Proof.
  intros Hw. apply forallb_Forall_true in Hw. eapply Forall_impl; [exact Hw|].
  intros c Hc. cbn in Hc. destruct (is_newline c) eqn:E; [|reflexivity].
  rewrite (is_newline_isspace c E) in Hc. discriminate.
Qed.

Lemma join_no_newline ws :
  Forall (fun w => w <> [] /\ no_space w = true) ws ->
  Forall (fun c => is_newline c = false) (join [" "%char] ws).
Proof.
  induction 1 as [|w ws [_ Hw] _ IH]; [constructor|].
  destruct ws as [|w' ws].
  - apply no_space_no_newline, Hw.
  - change (join [" "%char] (w :: w' :: ws))
      with (w ++ " "%char :: join [" "%char] (w' :: ws)).
    apply Forall_app. split; [apply no_space_no_newline, Hw|].
    constructor; [reflexivity|exact IH].
Qed.

(** X7: the parenthetical qualifier is removed greedily, up to the last
    closing parenthesis: when the text before the quantity opens with a
    parenthesis and ends with one, all of it goes and the name is empty. *)
Theorem x7_qualifier_is_removed_to_the_last_parenthesis (ws : list str) (q ds us : str) :
  clean_words ws -> quantity_suffix ds us ->
  q <> [] -> join [" "%char] ws = "("%char :: q ++ [")"%char] ->
  split_name_quantity (join [" "%char] ws ++ " "%char :: ds ++ us ++ ["."%char])
  = Ok ([], Some (ds ++ us)).
Proof.
  intros Hws Hq Hne Ejoin.
  destruct (split_name_quantity_suffix (join [" "%char] ws) ds us Hq) as [_ ->].
  destruct (re_split_ws_name_tokens ws ds us Hws Hq) as [_ ->].
  rewrite removelast_last, Ejoin.
  assert (Hnl : Forall (fun c => is_newline c = false) q).
  { pose proof (join_no_newline ws (proj2 Hws)) as Hall. rewrite Ejoin in Hall.
    inversion Hall as [|? ? _ Hrest]; subst. apply Forall_app in Hrest. tauto. }
  rewrite (re_sub_leading_paren_qualifier q [] Hne Hnl); [reflexivity|constructor].
Qed.

Lemma x7_qualifier_is_removed_to_the_last_parenthesis_witness :
  split_name_quantity (s_ "(New) Fresh Milk (Promo) 1L.") = Ok ([], Some (s_ "1L")).
Proof.
  apply (x7_qualifier_is_removed_to_the_last_parenthesis
           [s_ "(New)"; s_ "Fresh"; s_ "Milk"; s_ "(Promo)"]
           (s_ "New) Fresh Milk (Promo") (s_ "1") (s_ "L")).
  - split; [discriminate|]. repeat constructor; discriminate.
  - split; [discriminate|]. split; [repeat constructor|]. split; [left; reflexivity|repeat constructor].
  - discriminate.
  - reflexivity.
Defined.

(** ** Barcode and labels *)

Lemma barcode_of_sku_cases (sku : str) :
  let tok := tail_word (strip sku) in
  (forall b, barcode_of_sku sku = Ok (Some b) ->
     b = s_ "EAN-13 " ++ tok /\ ean13_spec tok = true) /\
  (barcode_of_sku sku = Ok None -> is_valid_ean13 tok = Ok false) /\
  (forall e, barcode_of_sku sku = Raise e -> e = ValueError /\ length tok = 13%nat).
Proof.
  intros tok. unfold barcode_of_sku. rewrite last_re_split_ws.
  cbn [mbind result_bind]. fold tok.
  destruct (is_valid_ean13_cases tok) as [[Hn E]|[(Hl & Hd & E)|(Hl & Hd & Hx & E)]];
    rewrite E; cbn [mbind result_bind mret result_ret].
  - repeat split; try discriminate; intros; discriminate.
  - assert (Hspec : ean13_spec tok = check_digit_matches tok).
    { unfold ean13_spec. apply Nat.eqb_eq in Hl. rewrite Hl.
      apply forallb_Forall_true in Hd. rewrite Hd. reflexivity. }
    destruct (check_digit_matches tok) eqn:Hc.
    + split; [|split]; [|discriminate|discriminate].
      intros b [= <-]. auto.
    + split; [|split]; [discriminate|reflexivity|discriminate].
  - split; [|split]; [discriminate|discriminate|]. intros e [= <-]. auto.
Qed.

(** X8: a barcode, when there is one, is [EAN-13 ] followed by the last
    token of the sku text, which is then thirteen decimal digits with a
    matching check digit; and the barcode step raises nothing but the
    [ValueError] of a token of thirteen digit characters. *)
Theorem x8_barcode_is_validated (sku : str) :
  let tok := tail_word (strip sku) in
  (forall b, barcode_of_sku sku = Ok (Some b) ->
     b = s_ "EAN-13 " ++ tok /\ ean13_spec tok = true) /\
  (barcode_of_sku sku = Ok None -> is_valid_ean13 tok = Ok false) /\
  (forall e, barcode_of_sku sku = Raise e -> e = ValueError /\ length tok = 13%nat).
Proof. apply barcode_of_sku_cases. Qed.

Lemma lstrip_space_prefix a s :
  Forall (fun c => isspace c = true) a -> lstrip (a ++ s) = lstrip s.
Proof. induction 1 as [|c a Hc _ IH]; [reflexivity|]. cbn [app lstrip]. rewrite Hc. exact IH. Qed.

Lemma rstrip_space_suffix s pad :
  Forall (fun c => isspace c = true) pad -> rstrip (s ++ pad) = rstrip s.
Proof.
  intros Hpad. unfold rstrip. rewrite rev_app_distr, lstrip_space_prefix; [reflexivity|].
  apply Forall_rev, Hpad.
Qed.

Lemma lstrip_clean s : starts_clean s -> lstrip s = s.
Proof. destruct s as [|c s]; [reflexivity|]. cbn. intros ->. reflexivity. Qed.

Lemma rstrip_ends_in_token b tok :
  tok <> [] -> no_space tok = true -> rstrip (b ++ tok) = b ++ tok.
Proof.
  intros Hne Hns. unfold rstrip. rewrite lstrip_clean; [apply rev_involutive|].
  rewrite rev_app_distr.
  destruct (exists_last Hne) as (t & z & ->).
  rewrite rev_app_distr. cbn [rev app starts_clean].
  rewrite no_space_app, andb_true_iff in Hns. destruct Hns as [_ Hz].
  cbn in Hz. rewrite andb_true_r, negb_true_iff in Hz. exact Hz.
Qed.

Lemma lstrip_before_token pre c tok rest :
  isspace c = true -> tok <> [] -> no_space tok = true ->
  exists b,
    lstrip (pre ++ c :: tok ++ rest) = b ++ tok ++ rest /\
    (b = [] \/ exists b', b = b' ++ [c]).
Proof.
  intros Hc Hne Hns.
  assert (Hhead : lstrip (tok ++ rest) = tok ++ rest).
  { apply lstrip_clean. destruct tok as [|z t]; [congruence|].
    rewrite no_space_cons, andb_true_iff, negb_true_iff in Hns. cbn. tauto. }
  induction pre as [|x pre IH].
  - exists []. cbn [app lstrip]. rewrite Hc. auto.
  - cbn [app lstrip]. destruct (isspace x); [exact IH|].
    exists (x :: pre ++ [c]). split; [|right; exists (x :: pre); reflexivity].
    cbn [app]. rewrite <- app_assoc. reflexivity.
Qed.

Lemma tail_word_strip_token pre c tok pad :
  isspace c = true -> tok <> [] -> no_space tok = true ->
  Forall (fun c => isspace c = true) pad ->
  tail_word (strip (pre ++ c :: tok ++ pad)) = tok.
Proof.
  intros Hc Hne Hns Hpad. unfold strip.
  destruct (lstrip_before_token pre c tok pad Hc Hne Hns) as (b & -> & Hb).
  rewrite app_assoc, rstrip_space_suffix by exact Hpad.
  rewrite rstrip_ends_in_token by assumption.
  destruct Hb as [->|[b' ->]].
  - apply tail_word_no_space, Hns.
  - rewrite <- app_assoc. apply tail_word_after_space; assumption.
Qed.

(** X9: the barcode is decided by the last token of the sku text alone:
    whatever stands before the whitespace in front of it, and whatever
    whitespace follows it, the result is that of validating the token. *)
Theorem x9_barcode_depends_on_last_token (pre tok pad : str) (c : ascii) :
  isspace c = true -> tok <> [] -> no_space tok = true ->
  Forall (fun c => isspace c = true) pad ->
  barcode_of_sku (pre ++ c :: tok ++ pad) =
    valid ← is_valid_ean13 tok;
    mret (if valid : bool then Some (s_ "EAN-13 " ++ tok) else None).
Proof.
  intros Hc Hne Hns Hpad. unfold barcode_of_sku.
  rewrite last_re_split_ws, (tail_word_strip_token pre c tok pad Hc Hne Hns Hpad).
  reflexivity.
Qed.

Lemma x9_barcode_depends_on_last_token_witness :
  barcode_of_sku (s_ "SKU: 123  4006381333931" ++ [newline])
  = Ok (Some (s_ "EAN-13 4006381333931")).
Proof.
  apply (x9_barcode_depends_on_last_token (s_ "SKU: 123 ") (s_ "4006381333931")
           [newline] " "%char).
  - reflexivity.
  - discriminate.
  - reflexivity.
  - repeat constructor.
Defined.

Lemma result_mapM_cases {A B} (f : A -> result B) (l : list A) :
  (exists ys, result_mapM f l = Ok ys /\ Forall2 (fun x y => f x = Ok y) l ys) \/
  (exists e x, result_mapM f l = Raise e /\ x ∈ l /\ f x = Raise e).
Proof.
  induction l as [|x l IH]; cbn [result_mapM].
  - left. exists []. split; [reflexivity|constructor].
  - destruct (f x) as [y|e] eqn:Ex; cbn [mbind result_bind].
    + destruct IH as [(ys & -> & Hall)|(e & x' & -> & Hin & Hx')]; cbn [mbind result_bind].
      * left. exists (y :: ys). split; [reflexivity|]. constructor; assumption.
      * right. exists e, x'. split; [reflexivity|]. split; [right; exact Hin|exact Hx'].
    + right. exists e, x. split; [reflexivity|]. split; [left|exact Ex].
Qed.

Lemma clean_labels_cases (alts : list (option str)) :
  (forall ls, clean_labels alts = Ok ls ->
     ls = List.filter (fun s => negb (bool_decide (s = []))) (map strip (omap id alts)) /\
     Forall (fun l => l <> [] /\ trimmed l) ls /\
     None ∉ alts) /\
  (forall e, clean_labels alts = Raise e -> e = TypeError /\ None ∈ alts).
Proof.
  unfold clean_labels.
  destruct (result_mapM_cases
              (fun a : option str => match a with
                                     | Some s => Ok (strip s)
                                     | None => Raise TypeError
                                     end) alts)
    as [(ys & E & Hall)|(e & x & E & Hin & Hx)];
    rewrite E; cbn [mbind result_bind mret result_ret]; split.
  - intros ls [= <-].
    assert (Hys : ys = map strip (omap id alts) /\ None ∉ alts).
    { clear E. induction Hall as [|a y alts ys Ha _ [IH1 IH2]]; [split; [reflexivity|]|].
      - intros Hin. inversion Hin.
      - destruct a as [s|]; [|discriminate]. injection Ha as <-. split.
        + cbn. f_equal. exact IH1.
        + intros Hin. inversion Hin; subst. contradiction. }
    destruct Hys as [-> Hnone]. split; [reflexivity|]. split; [|exact Hnone].
    apply Forall_forall. intros l Hl.
    apply list_elem_of_In, List.filter_In in Hl as [Hl Hne].
    apply negb_true_iff, bool_decide_eq_false in Hne. split; [exact Hne|].
    apply List.in_map_iff in Hl as (s & <- & _). apply strip_trimmed.
  - discriminate.
  - discriminate.
  - destruct x as [s|]; [discriminate|]. injection Hx as <-.
    intros e' [= <-]. split; [reflexivity|exact Hin].
Qed.

(** X10: the labels come out trimmed, in page order, without the empty
    ones; an image without [alt] makes the step raise [TypeError], and
    nothing else does. *)
Theorem x10_labels_are_trimmed_and_nonempty (alts : list (option str)) :
  (forall ls, clean_labels alts = Ok ls ->
     ls = List.filter (fun s => negb (bool_decide (s = []))) (map strip (omap id alts)) /\
     Forall (fun l => l <> [] /\ trimmed l) ls /\
     None ∉ alts) /\
  (forall e, clean_labels alts = Raise e -> e = TypeError /\ None ∈ alts).
Proof. apply clean_labels_cases. Qed.

(** ** The events of a run *)

Section RunEvents.
Context `{PyFloat}.

(** X11: a run that was given a session adds no launch and no closing of
    a browser to the trace, on any exit path: it neither opens a session
    of its own nor closes the one it was given. *)
Theorem x11_supplied_session_is_left_alone (on_url : str) (b : Browser) (w : World) :
  exists evs,
    trace (extract_product_info on_url (Some b) w).2 = evs ++ trace w /\
    Forall (fun e => is_close_browser e = false /\ is_launch e = false) evs /\
    browser_closed b (trace (extract_product_info on_url (Some b) w).2)
    = browser_closed b (trace w).
Proof.
  rewrite extract_product_info_run. unfold run_of, session_of.
  destruct (browser_closed b (EvRateLimit "tops_website" :: trace w)).
  { exists [EvRateLimit "tops_website"]. cbn. repeat constructor. }
  destruct (goto_outcome (site w on_url)).
  2:{ eexists [_; _]. cbn. split; [reflexivity|]. repeat constructor. }
  destruct (page_record on_url (site w on_url)).
  - eexists [_; _; _; _]. cbn. split; [reflexivity|]. repeat constructor.
  - eexists [_; _; _]. cbn. split; [reflexivity|]. repeat constructor.
Qed.

(** X12: a run without a session launches one browser; when it returns a
    record it has closed its page and then that browser, and when it
    raises it has closed neither. *)
Theorem x12_own_session_is_closed_on_success_only (on_url : str) (w : World) :
  let b := launches (trace w) in
  let p := length (List.filter is_new_page (trace w)) in
  (forall data w', extract_product_info on_url None w = (Ok data, w') ->
     trace w' = [EvCloseBrowser b; EvClosePage p; EvGoto p on_url; EvNewPage b p;
                 EvLaunch b; EvRateLimit "tops_website"] ++ trace w) /\
  (forall e w', extract_product_info on_url None w = (Raise e, w') ->
     exists evs,
       trace w' = evs ++ trace w /\ In (EvLaunch b) evs /\
       Forall (fun e => is_close_browser e = false /\ is_close_page e = false) evs).
Proof.
  intros b p. rewrite extract_product_info_run. unfold run_of, session_of.
  cbn [List.filter is_launch is_new_page]. fold (launches (trace w)). fold b. fold p.
  destruct (browser_closed b (EvLaunch b :: EvRateLimit "tops_website" :: trace w)).
  { split; [discriminate|]. intros e w' [= _ <-]. eexists [_; _]. cbn.
    split; [reflexivity|]. split; [auto|repeat constructor]. }
  destruct (goto_outcome (site w on_url)).
  2:{ split; [discriminate|]. intros e' w' [= _ <-]. eexists [_; _; _]. cbn.
      split; [reflexivity|]. split; [auto|repeat constructor]. }
  destruct (page_record on_url (site w on_url)).
  - split; [|discriminate]. intros data w' [= _ <-]. reflexivity.
  - split; [discriminate|]. intros e' w' [= _ <-]. eexists [_; _; _; _]. cbn.
    split; [reflexivity|]. split; [auto|repeat constructor].
Qed.

(** X13: every run acquires the rate-limit slot [tops_website] once, and
    before anything else it does, on every exit path and whether or not it
    was given a session. *)
Theorem x13_rate_limit_comes_first (on_url : str) (browser : option Browser) (w : World) :
  exists evs,
    trace (extract_product_info on_url browser w).2
    = evs ++ EvRateLimit "tops_website" :: trace w /\
    Forall (fun e => is_rate_limit e = false) evs.
Proof.
  rewrite extract_product_info_run. unfold run_of, session_of.
  destruct browser as [b|].
  all: match goal with |- context [browser_closed ?b ?tr] => destruct (browser_closed b tr) end.
  all: try destruct (goto_outcome (site w on_url)).
  all: try destruct (page_record on_url (site w on_url)).
  all: cbn [snd with_trace trace closing app].
  all: match goal with
       | |- exists evs, ?new = evs ++ ?old /\ _ =>
           let rec pre l :=
             lazymatch l with
             | old => constr:(@nil event)
             | ?e :: ?l' => let r := pre l' in constr:(e :: r)
             end in
           let evs := pre new in exists evs
       end.
  all: split; [reflexivity|repeat constructor].
Qed.
End RunEvents.

(** ** The record of a successful run *)

(** X14: every field of a returned record comes from the page as the code
    says: the name and the quantity from the name text, with a quantity
    exactly when that text has the quantity suffix; the price is the parsed
    price text; the images are the [src] attributes in page order; the
    barcode is null or [EAN-13 ] and thirteen decimal digits with a matching
    check digit; the labels are trimmed and none is empty. *)
Theorem x14_record_fields `{PyFloat} (on_url : str) (browser : option Browser)
    (w w' : World) (data : record) :
  extract_product_info on_url browser w = (Ok data, w') ->
  let pg := site w on_url in
  exists raw images txt name quantity barcode price labels,
    name_text pg = Ok raw /\ image_srcs pg = Ok images /\ price_text pg = Ok txt /\
    data = [ ("name"%string, VStr name);
             ("quantity"%string, of_opt_str quantity);
             ("price"%string, VFloat price);
             ("images"%string, VList (map of_opt_str images));
             ("barcode"%string, of_opt_str barcode);
             ("labels"%string, VList (map VStr labels));
             ("store_url"%string, VStr on_url) ] /\
    split_name_quantity raw = Ok (name, quantity) /\
    (quantity <> None <-> has_quantity_suffix raw) /\
    float_of_str txt = Some price /\
    (barcode = None \/
     exists tok, barcode = Some (s_ "EAN-13 " ++ tok) /\ ean13_spec tok = true) /\
    Forall (fun l => l <> [] /\ trimmed l) labels.
Proof.
  intros Hrun pg. pose proof (run_ok_record _ _ _ _ _ Hrun) as Hrec. fold pg in Hrec.
  unfold page_record in Hrec.
  destruct (name_text pg) as [raw|]; cbn [mbind result_bind] in Hrec; [|discriminate].
  destruct (image_srcs pg) as [images|]; cbn [mbind result_bind] in Hrec; [|discriminate].
  destruct (split_name_quantity_cases raw) as (name & quantity & Hsplit & Hiff & _).
  rewrite Hsplit in Hrec. cbn [mbind result_bind fst snd] in Hrec.
  destruct (sku_text pg) as [sku|]; cbn [mbind result_bind] in Hrec; [|discriminate].
  destruct (barcode_of_sku sku) as [barcode|] eqn:Hbar; cbn [mbind result_bind] in Hrec;
    [|discriminate].
  destruct (details_of pg); cbn [mbind result_bind] in Hrec; [|discriminate].
  destruct (price_text pg) as [txt|]; cbn [mbind result_bind] in Hrec; [|discriminate].
  unfold py_float in Hrec.
  destruct (float_of_str txt) as [price|] eqn:Hprice; cbn [mbind result_bind] in Hrec;
    [|discriminate].
  destruct (label_alts pg) as [alts|]; cbn [mbind result_bind] in Hrec; [|discriminate].
  destruct (clean_labels alts) as [labels|] eqn:Hlab; cbn [mbind result_bind] in Hrec;
    [|discriminate].
  injection Hrec as <-.
  exists raw, images, txt, name, quantity, barcode, price, labels.
  repeat (split; [reflexivity|]). split; [exact Hsplit|]. split; [exact Hiff|].
  split; [exact Hprice|]. split.
  - destruct barcode as [b|]; [right|left; reflexivity].
    destruct (barcode_of_sku_cases sku) as (Hsome & _).
    destruct (Hsome b Hbar) as [-> Hspec]. eauto.
  - destruct (clean_labels_cases alts) as (Hok & _).
    destruct (Hok labels Hlab) as (_ & Hall & _). exact Hall.
Qed.

Lemma x14_record_fields_witness :
  let url := s_ "https://shop/p/1" in
  exists raw images txt name quantity barcode price labels,
    name_text milk_page = Ok raw /\ image_srcs milk_page = Ok images /\
    price_text milk_page = Ok txt /\
    milk_record url
    = [ ("name"%string, VStr name);
        ("quantity"%string, of_opt_str quantity);
        ("price"%string, VFloat price);
        ("images"%string, VList (map of_opt_str images));
        ("barcode"%string, of_opt_str barcode);
        ("labels"%string, VList (map VStr labels));
        ("store_url"%string, VStr url) ] /\
    split_name_quantity raw = Ok (name, quantity) /\
    (quantity <> None <-> has_quantity_suffix raw) /\
    float_of_str (PyFloat := demo_float) txt = Some price /\
    (barcode = None \/
     exists tok, barcode = Some (s_ "EAN-13 " ++ tok) /\ ean13_spec tok = true) /\
    Forall (fun l => l <> [] /\ trimmed l) labels.
Proof.
  intros url.
  refine (x14_record_fields (H := demo_float) url None (serving milk_page)
            (served milk_page url) (milk_record url) _).
  vm_compute. reflexivity.
Defined.

(** ** Runs, retries and the sink *)

Section TaskOutcome.
Context `{PyFloat}.

Lemma fresh_browser_open tr : wf_trace tr -> browser_closed (launches tr) tr = false.
Proof.
  intros Hwf. destruct (browser_closed (launches tr) tr) eqn:E; [|reflexivity].
  apply Hwf in E. lia.
Qed.

(** The outcome, the world and the counts of a run that opens its own
    session, from a trace in which the next browser is open. *)
Lemma own_run on_url w :
  wf_trace (trace w) ->
  let run := extract_product_info on_url None w in
  site run.2 = site w /\
  wf_trace (trace run.2) /\
  task_runs on_url (trace run.2) = task_runs on_url (trace w) /\
  written (trace run.2) = written (trace w) /\
  launches (trace run.2) = S (launches (trace w)) /\
  run.1 = match goto_outcome (site w on_url) with
          | Raise e => Raise e
          | Ok _ => page_record on_url (site w on_url)
          end /\
  closings (trace run.2)
  = match run.1 with
    | Ok _ => S (closings (trace w))
    | Raise _ => closings (trace w)
    end.
Proof.
  intros Hwf run. subst run. rewrite extract_product_info_run.
  unfold run_of, session_of. cbn [List.filter is_launch]. fold (launches (trace w)).
  set (b := launches (trace w)).
  assert (Hopen : browser_closed b (EvLaunch b :: EvRateLimit "tops_website" :: trace w)
                  = false) by (cbn; apply fresh_browser_open, Hwf).
  rewrite Hopen.
  assert (Hwf' : forall evs,
            Forall (fun e => is_close_browser e = false) evs ->
            wf_trace (evs ++ EvLaunch b :: EvRateLimit "tops_website" :: trace w) /\
            wf_trace (EvCloseBrowser b :: evs ++ EvLaunch b
                        :: EvRateLimit "tops_website" :: trace w)).
  { intros evs Hevs.
    assert (Hc : forall b', browser_closed b'
                   (evs ++ EvLaunch b :: EvRateLimit "tops_website" :: trace w)
                 = browser_closed b' (trace w)).
    { intros b'. unfold browser_closed. rewrite existsb_app. cbn.
      replace (existsb (closes b') evs) with false; [reflexivity|].
      symmetry. induction Hevs as [|e evs He _ IH]; [reflexivity|].
      cbn. rewrite IH, orb_false_r. destruct e; try discriminate He; reflexivity. }
    assert (Hl : (launches (trace w) < launches
                   (evs ++ EvLaunch b :: EvRateLimit "tops_website" :: trace w))%nat).
    { unfold launches. rewrite List.filter_app, length_app. cbn. lia. }
    split.
    - intros b' Hb'. rewrite Hc in Hb'. apply Hwf in Hb'. lia.
    - intros b' Hb'. unfold launches. cbn [List.filter is_launch].
      fold (launches (evs ++ EvLaunch b :: EvRateLimit "tops_website" :: trace w)).
      change (browser_closed b' (EvCloseBrowser b :: ?tr))
        with ((b =? b')%nat || browser_closed b' tr) in Hb'.
      rewrite Hc in Hb'. apply orb_true_iff in Hb' as [Hb'|Hb'].
      + apply Nat.eqb_eq in Hb'. subst b'. exact Hl.
      + apply Hwf in Hb'. lia. }
  unfold task_runs, written, launches, closings in *.
  destruct (goto_outcome (site w on_url)).
  2:{ cbn. repeat split; try reflexivity.
      exact (proj1 (Hwf' [EvNewPage b _] ltac:(repeat constructor))). }
  destruct (page_record on_url (site w on_url)).
  - cbn. repeat split; try reflexivity.
    exact (proj2 (Hwf' [EvClosePage _; EvGoto _ on_url; EvNewPage b _]
                    ltac:(repeat constructor))).
  - cbn. repeat split; try reflexivity.
    exact (proj1 (Hwf' [EvGoto _ on_url; EvNewPage b _] ltac:(repeat constructor))).
Qed.

Lemma started_facts url w :
  wf_trace (trace w) ->
  wf_trace (trace (started url w)) /\
  launches (trace (started url w)) = launches (trace w) /\
  closings (trace (started url w)) = closings (trace w) /\
  written (trace (started url w)) = written (trace w) /\
  task_runs url (trace (started url w)) = S (task_runs url (trace w)).
Proof.
  intros Hwf. repeat split; try reflexivity.
  - exact Hwf.
  - unfold task_runs. cbn. rewrite bool_decide_true by reflexivity. reflexivity.
Qed.
End TaskOutcome.

(** X15: with one and the same site a retry repeats the outcome: the
    decorated task returns or raises what a single run does.  A task that
    returns ran once and closed the browser it launched; a task that fails
    ran twice, and leaves the two browsers it launched open. *)
Theorem x15_retry_repeats_the_outcome `{PyFloat} (url : str) (w : World) :
  wf_trace (trace w) ->
  let task := extract_product_info_task url w in
  task.1 = (extract_product_info url None w).1 /\
  (forall data, task.1 = Ok data ->
     task_runs url (trace task.2) = (1 + task_runs url (trace w))%nat /\
     launches (trace task.2) = (1 + launches (trace w))%nat /\
     closings (trace task.2) = (1 + closings (trace w))%nat) /\
  (forall e, task.1 = Raise e ->
     task_runs url (trace task.2) = (2 + task_runs url (trace w))%nat /\
     launches (trace task.2) = (2 + launches (trace w))%nat /\
     closings (trace task.2) = closings (trace w)).
Proof.
  intros Hwf task. subst task. unfold extract_product_info_task.
  destruct (own_run url w Hwf) as (_ & _ & _ & _ & _ & Hout & _).
  destruct (started_facts url w Hwf) as (Hwf0 & Hl0 & Hc0 & _ & Ht0).
  destruct (own_run url (started url w) Hwf0)
    as (Hs1 & Hwf1 & Ht1 & _ & Hl1 & Hout1 & Hc1).
  rewrite task_run_unfold.
  destruct (extract_product_info url None (started url w)) as [r1 w1];
    cbn [fst snd] in *.
  change (site (started url w)) with (site w) in *.
  rewrite Hout, <- Hout1. clear Hout.
  destruct r1 as [data|e1].
  - cbn [fst snd]. cbv iota in Hc1. split; [reflexivity|]. split; [|discriminate].
    intros ? _. cbn [snd]. lia.
  - rewrite task_run_unfold.
    destruct (started_facts url w1 Hwf1) as (Hwf2 & Hl2 & Hc2 & _ & Ht2).
    destruct (own_run url (started url w1) Hwf2)
      as (_ & _ & Ht3 & _ & Hl3 & Hout3 & Hc3).
    change (site (started url w1)) with (site w1) in Hout3. rewrite Hs1 in Hout3.
    rewrite <- Hout1 in Hout3.
    destruct (extract_product_info url None (started url w1)) as [r2 w2];
      cbn [fst snd] in *. subst r2. cbv iota in Hc1, Hc3.
    split; [reflexivity|]. split; [discriminate|]. intros ? _. cbn [snd]. lia.
Qed.

Lemma x15_retry_repeats_the_outcome_witness :
  let url := s_ "https://shop/p/1" in
  let w := serving (H := demo_float) (with_price (Ok (s_ "N/A")) milk_page) in
  (extract_product_info_task url w).1 = (extract_product_info url None w).1.
Proof.
  intros url w.
  refine (proj1 (x15_retry_repeats_the_outcome (H := demo_float) url w _)).
  intros b Hb. discriminate Hb.
Defined.

Section Sink.
Context `{PyFloat}.




End Sink.



(** ** More on the stabilization loop *)

Section LoopBounds.
Context `{ListingSite}.

Lemma early_rounds_keep_scrolling on_url k :
  (k < 3)%nat -> keep_scrolling (after_rounds k (initial_state on_url)) = true.
Proof.
  intros Hk. set (s0 := initial_state on_url).
  unfold keep_scrolling. apply andb_true_iff. split.
  - apply Nat.ltb_lt. unfold deque_count.
    eapply Nat.le_lt_trans; [apply count_occ_bound|].
    rewrite (ring_buffer_contents s0 k eq_refl), length_drop, samples_length. lia.
  - apply Z.ltb_lt. rewrite after_rounds_total. unfold max_wait_time. cbn. lia.
Qed.

Lemma three_equal_samples_stop on_url k c :
  (3 <= k)%nat ->
  (forall j, (k - 2 <= j <= k)%nat ->
     last_product_count (after_rounds j (initial_state on_url)) = c) ->
  keep_scrolling (after_rounds k (initial_state on_url)) = false.
Proof.
  intros Hk Hsame. set (s0 := initial_state on_url) in *.
  apply keep_scrolling_stop; [apply ring_buffer_length; reflexivity|]. left.
  unfold plateau. rewrite (ring_buffer_contents s0 k eq_refl).
  split; [rewrite length_drop, samples_length; lia|].
  apply Forall_lookup. intros i x Hx.
  rewrite lookup_drop in Hx. unfold samples in Hx.
  rewrite list_lookup_fmap in Hx.
  destruct (seq 1 k !! (k - 3 + i)%nat) as [j|] eqn:Hj; [|discriminate].
  injection Hx as <-. apply lookup_seq in Hj as [-> Hlt].
  rewrite (Hsame k) by lia. apply Hsame. lia.
Qed.

Lemma loop_rounds on_url fuel :
  (150 <= fuel)%nat ->
  exists n,
    (n <= 150)%nat /\
    scroll_loop fuel (initial_state on_url) = Some (after_rounds n (initial_state on_url)) /\
    keep_scrolling (after_rounds n (initial_state on_url)) = false /\
    (forall k, (k < n)%nat -> keep_scrolling (after_rounds k (initial_state on_url)) = true).
Proof.
  intros Hfuel. set (s0 := initial_state on_url).
  destruct (scroll_loop_returns 150 s0) as (n & Hn & _ & Hstop & Hbefore).
  { unfold max_wait_time. cbn. lia. }
  destruct (scroll_loop_returns fuel s0) as (m & _ & Hrun' & Hstop' & Hbefore').
  { unfold max_wait_time. cbn. lia. }
  assert (m = n) as ->.
  { destruct (lt_eq_lt_dec m n) as [[Hlt|Heq]|Hgt]; [|exact Heq|].
    - rewrite (Hbefore m Hlt) in Hstop'. discriminate.
    - rewrite (Hbefore' n Hgt) in Hstop. discriminate. }
  exists n. auto.
Qed.
End LoopBounds.

(** X17: the loop never returns before its third round: the sample taken
    before the loop is not in the ring buffer, so even a listing that shows
    all its products at once is scrolled nine times, and 6,000 ms are
    counted, before the links are read. *)
Theorem x17_at_least_three_rounds `{ListingSite} (on_url : str) (fuel : nat) :
  (150 <= fuel)%nat ->
  exists n,
    (3 <= n <= 150)%nat /\
    find_product_pages fuel on_url
    = Some (product_hrefs (page (after_rounds n (initial_state on_url)))) /\
    6000 <= total_wait_time (after_rounds n (initial_state on_url)).
Proof.
  intros Hfuel. destruct (loop_rounds on_url fuel Hfuel) as (n & Hn & Hrun & Hstop & _).
  assert (Hn3 : (3 <= n)%nat).
  { destruct (le_lt_dec 3 n) as [|Hlt]; [assumption|].
    rewrite (early_rounds_keep_scrolling on_url n Hlt) in Hstop. discriminate. }
  exists n. split; [lia|]. split.
  - unfold find_product_pages. rewrite Hrun. reflexivity.
  - rewrite after_rounds_total. cbn. lia.
Qed.

(** X18: the loop returns as soon as three samples in a row are equal: if
    the samples of the rounds k-2, k-1 and k are the same, the loop has
    returned after k rounds at most, having counted 2,000 ms a round. *)
Theorem x18_returns_on_three_equal_samples `{ListingSite} (on_url : str) (fuel k c : nat) :
  (150 <= fuel)%nat -> (3 <= k)%nat ->
  (forall j, (k - 2 <= j <= k)%nat ->
     last_product_count (after_rounds j (initial_state on_url)) = c) ->
  exists n,
    (3 <= n <= k)%nat /\
    find_product_pages fuel on_url
    = Some (product_hrefs (page (after_rounds n (initial_state on_url)))) /\
    total_wait_time (after_rounds n (initial_state on_url)) <= 2000 * Z.of_nat k.
Proof.
  intros Hfuel Hk Hsame.
  destruct (loop_rounds on_url fuel Hfuel) as (n & Hn & Hrun & Hstop & Hbefore).
  assert (Hn3 : (3 <= n)%nat).
  { destruct (le_lt_dec 3 n) as [|Hlt]; [assumption|].
    rewrite (early_rounds_keep_scrolling on_url n Hlt) in Hstop. discriminate. }
  assert (Hnk : (n <= k)%nat).
  { destruct (le_lt_dec n k) as [|Hlt]; [assumption|].
    specialize (Hbefore k Hlt).
    rewrite (three_equal_samples_stop on_url k c Hk Hsame) in Hbefore. discriminate. }
  exists n. split; [lia|]. split.
  - unfold find_product_pages. rewrite Hrun. reflexivity.
  - rewrite after_rounds_total. cbn. lia.
Qed.

Section SettlingRounds.
#[local] Existing Instance settling_site.

Lemma x17_at_least_three_rounds_witness :
  exists n,
    (3 <= n <= 150)%nat /\
    find_product_pages 150 (s_ "https://shop/c/1")
    = Some (product_hrefs (page (after_rounds n (initial_state (s_ "https://shop/c/1"))))) /\
    6000 <= total_wait_time (after_rounds n (initial_state (s_ "https://shop/c/1"))).
Proof. apply x17_at_least_three_rounds. lia. Defined.

Lemma x18_returns_on_three_equal_samples_witness :
  exists n,
    (3 <= n <= 5)%nat /\
    find_product_pages 150 (s_ "https://shop/c/1")
    = Some (product_hrefs (page (after_rounds n (initial_state (s_ "https://shop/c/1"))))) /\
    total_wait_time (after_rounds n (initial_state (s_ "https://shop/c/1")))
    <= 2000 * Z.of_nat 5.
Proof.
  apply (x18_returns_on_three_equal_samples (s_ "https://shop/c/1") 150 5 42); [lia|lia|].
  intros j Hj.
  assert (j = 3 \/ j = 4 \/ j = 5)%nat as [->|[->| ->]] by lia; vm_compute; reflexivity.
Defined.
End SettlingRounds.

(** ** The stages of [main] and [alt_main] *)

(** X19: the product links [main] hands to the extraction follow the input
    order through both stages: the links of the first seed's first category
    come first, whatever the order in which the runs of either stage
    completed. *)
Theorem x19_main_links_in_seed_order (find_category find_product : str -> list str)
    (nav_links : list str) (sched1 sched2 : list nat) :
  sched1 ≡ₚ seq 0 (length nav_links) ->
  sched2 ≡ₚ seq 0 (length (concat (map find_category nav_links))) ->
  crawl_links find_category find_product nav_links sched1 sched2
  = Some (concat (map find_product (concat (map find_category nav_links)))).
Proof.
  intros H1 H2. unfold crawl_links.
  rewrite (map_result_in_input_order find_category nav_links sched1 H1). cbn.
  rewrite chain_from_iterable_concat.
  rewrite (map_result_in_input_order find_product _ sched2 H2). cbn.
  rewrite chain_from_iterable_concat. reflexivity.
Qed.

Lemma x19_main_links_in_seed_order_witness :
  crawl_links (fun u => [u ++ s_ "/a"; u ++ s_ "/b"]) (fun u => [u ++ s_ "/1"])
    [s_ "s"; s_ "t"] [1; 0]%nat [3; 1; 0; 2]%nat
  = Some [s_ "s/a/1"; s_ "s/b/1"; s_ "t/a/1"; s_ "t/b/1"].
Proof.
  apply (x19_main_links_in_seed_order
           (fun u => [u ++ s_ "/a"; u ++ s_ "/b"]) (fun u => [u ++ s_ "/1"])
           [s_ "s"; s_ "t"] [1; 0]%nat [3; 1; 0; 2]%nat).
  - cbn. apply perm_swap.
  - cbn. apply (Permutation_trans (l' := [1; 3; 0; 2]%nat)); [apply perm_swap|].
    apply (Permutation_trans (l' := [1; 0; 3; 2]%nat));
      [apply perm_skip, perm_swap|].
    apply (Permutation_trans (l' := [0; 1; 3; 2]%nat)); [apply perm_swap|].
    do 2 apply perm_skip. apply perm_swap.
Defined.

(** X20: [alt_main] extracts a head of the full crawl of its seed: at most
    ten product links, all from the first category page of the seed, in the
    order and at the place they have in what [main]'s stages give for that
    seed. *)
Theorem x20_alt_main_is_a_head_of_the_crawl (find_category find_product : str -> list str)
    (sched1 sched2 : list nat) :
  let categories := concat (map find_category alt_nav_links) in
  sched1 ≡ₚ seq 0 (length alt_nav_links) ->
  sched2 ≡ₚ seq 0 (length (take 1 categories)) ->
  exists links,
    alt_main_links find_category find_product sched1 sched2 = Some links /\
    (length links <= 10)%nat /\
    links = take 10 (concat (map find_product (take 1 categories))) /\
    links `prefix_of` concat (map find_product categories).
Proof.
  intros categories H1 H2. unfold alt_main_links.
  rewrite (map_result_in_input_order find_category alt_nav_links sched1 H1). cbn [mbind option_bind].
  rewrite chain_from_iterable_concat. fold categories.
  rewrite (map_result_in_input_order find_product _ sched2 H2). cbn [mbind option_bind mret option_ret].
  rewrite chain_from_iterable_concat.
  eexists. split; [reflexivity|]. split; [rewrite length_take; lia|]. split; [reflexivity|].
  etransitivity; [apply prefix_take|].
  destruct categories as [|c cs]; [cbn; reflexivity|].
  cbn [take map concat]. rewrite app_nil_r. apply prefix_app_r. reflexivity.
Qed.

Lemma x20_alt_main_is_a_head_of_the_crawl_witness :
  exists links,
    alt_main_links (fun u => [u ++ s_ "/a"; u ++ s_ "/b"])
      (fun u => map (fun n => u ++ [ascii_of_nat (48 + n mod 10)]) (seq 0 12))
      [0]%nat [0]%nat = Some links /\
    (length links <= 10)%nat.
Proof.
  destruct (x20_alt_main_is_a_head_of_the_crawl
              (fun u => [u ++ s_ "/a"; u ++ s_ "/b"])
              (fun u => map (fun n => u ++ [ascii_of_nat (48 + n mod 10)]) (seq 0 12))
              [0]%nat [0]%nat) as (links & E & Hlen & _); [reflexivity|reflexivity|].
  exists links. split; [exact E|exact Hlen].
Defined.

(** ** More on the fingerprint *)

Lemma my_custom_policy_key `{Hasher} (source on_url : str) (browser : option Browser) :
  compute_key my_custom_policy source (call_inputs on_url browser)
  = Some (hash_keys [hash_source source;
                     hash_inputs {[ "on_url"%string := ArgStr on_url ]}]).
Proof.
  rewrite my_custom_policy_members.
  unfold compute_key. cbn [omap list_omap member_key].
  rewrite bool_decide_false by apply call_inputs_nonempty.
  rewrite call_inputs_without_browser. reflexivity.
Qed.

(** X21: when the hash functions have no collisions, two calls of
    [extract_product_info] have the same fingerprint exactly when the task
    source and the URL are the same: the cache never answers one URL with
    the record of another, and a change of the task's code misses the
    cache. *)
Theorem x21_fingerprint_tells_urls_apart `{Hasher} (source1 source2 url1 url2 : str)
    (browser1 browser2 : option Browser) :
  Inj (=) (=) hash_inputs -> Inj (=) (=) hash_source -> Inj (=) (=) hash_keys ->
  compute_key my_custom_policy source1 (call_inputs url1 browser1)
  = compute_key my_custom_policy source2 (call_inputs url2 browser2)
  <-> source1 = source2 /\ url1 = url2.
Proof.
  intros Hi Hs Hk. rewrite !my_custom_policy_key. split.
  - intros [= E]. apply Hk in E. injection E as E1 E2.
    apply Hs in E1. apply Hi in E2. split; [exact E1|].
    apply (f_equal (fun m => m !! "on_url"%string)) in E2.
    rewrite !lookup_singleton_eq in E2. congruence.
  - intros [-> ->]. reflexivity.
Qed.

Lemma x21_fingerprint_tells_urls_apart_witness :
  compute_key (H := tree_hasher) my_custom_policy (s_ "src")
    (call_inputs (s_ "https://shop/p/1") None)
  <> compute_key (H := tree_hasher) my_custom_policy (s_ "src")
       (call_inputs (s_ "https://shop/p/2") (Some 3%nat)).
Proof.
  intros E.
  apply (x21_fingerprint_tells_urls_apart (H := tree_hasher)) in E as [_ E];
    [discriminate E| | |]; intros x y [=]; assumption.
Defined.

(** ** [find_category_pages] *)

Section CategoryRun.
Context `{PyFloat} `{NavSite}.

(** The run written out. *)
Lemma find_category_pages_run on_url w :
  let tr1 := EvRateLimit "tops_website" :: trace w in
  let b := launches (trace w) in
  let tr2 := EvLaunch b :: tr1 in
  let p := length (List.filter is_new_page (trace w)) in
  let leave r tr :=
    (r, {| site := site w;
           trace := map EvCloseBrowser (still_open tr1 tr) ++ tr |}) in
  find_category_pages on_url w =
    if browser_closed b tr2 then leave (Raise PlaywrightError) tr2
    else
      let tr3 := EvNewPage b p :: tr2 in
      match nav_goto (nav_site on_url) with
      | Raise e => leave (Raise e) tr3
      | Ok _ =>
          let tr4 := EvGoto p on_url :: tr3 in
          match nav_carousel (nav_site on_url) with
          | Raise e => leave (Raise e) tr4
          | Ok _ =>
              match nav_hrefs (nav_site on_url) with
              | Raise e => leave (Raise e) tr4
              | Ok links => leave (Ok links) (EvCloseBrowser b :: tr4)
              end
          end
      end.
Proof.
  intros tr1 b tr2 p leave. subst leave tr2 tr1 b p.
  unfold find_category_pages, async_with_playwright, rate_limit, emit, launch, new_page,
    goto_nav, query_nav, close_browser_, launches.
  unfold mbind, M_bind, mret, M_ret.
  cbn [trace site List.filter is_launch is_new_page page_url].
  match goal with |- context [browser_closed ?b ?tr] => destruct (browser_closed b tr) end;
    [reflexivity|].
  cbn [trace site List.filter is_launch is_new_page page_url].
  destruct (nav_goto (nav_site on_url)); [|reflexivity].
  cbn [trace site List.filter is_launch is_new_page page_url]. rewrite Nat.eqb_refl.
  destruct (nav_carousel (nav_site on_url)); [|reflexivity].
  cbn [trace site List.filter is_launch is_new_page page_url]. rewrite ?Nat.eqb_refl.
  destruct (nav_hrefs (nav_site on_url)); reflexivity.
Qed.

Lemma still_open_one_launch tr evs b :
  b = launches tr -> Forall (fun e => is_launch e = false) evs ->
  still_open (EvRateLimit "tops_website" :: tr)
    (evs ++ EvLaunch b :: EvRateLimit "tops_website" :: tr)
  = if browser_closed b (evs ++ EvLaunch b :: EvRateLimit "tops_website" :: tr)
    then [] else [b].
Proof.
  intros -> Hevs. unfold still_open.
  assert (Hl : launches (evs ++ EvLaunch (launches tr) :: EvRateLimit "tops_website" :: tr)
               = S (launches tr)).
  { unfold launches. rewrite List.filter_app, length_app.
    replace (List.filter is_launch evs) with (@nil event); [reflexivity|].
    symmetry. induction Hevs as [|e evs He _ IH]; [reflexivity|].
    cbn. rewrite He. exact IH. }
  rewrite Hl. change (launches (EvRateLimit "tops_website" :: tr)) with (launches tr).
  replace (S (launches tr) - launches tr)%nat with 1%nat by lia.
  cbn [seq List.filter].
  destruct (browser_closed _ _); reflexivity.
Qed.
End CategoryRun.

(** X22: [find_category_pages] launches one browser and has closed it when
    it is left, whether it returns or raises: its session lives in an
    [async with] block.  When it returns, it returns the [href] of the
    carousel links in page order. *)
Theorem x22_category_session_is_always_closed `{PyFloat} `{NavSite} (on_url : str) (w : World) :
  let run := find_category_pages on_url w in
  let b := launches (trace w) in
  launches (trace run.2) = S b /\
  browser_closed b (trace run.2) = true /\
  (forall links, run.1 = Ok links -> nav_hrefs (nav_site on_url) = Ok links) /\
  (forall e, run.1 = Raise e ->
     nav_goto (nav_site on_url) = Raise e \/ nav_carousel (nav_site on_url) = Raise e \/
     nav_hrefs (nav_site on_url) = Raise e \/
     (e = PlaywrightError /\ browser_closed b (trace w) = true)).
Proof.
  intros run b. subst run. rewrite find_category_pages_run. cbv zeta. fold b.
  set (tr1 := EvRateLimit "tops_website" :: trace w).
  set (p := length (List.filter is_new_page (trace w))).
  assert (Hclosed : forall evs,
            Forall (fun e => is_launch e = false) evs ->
            let tr := evs ++ EvLaunch b :: tr1 in
            launches (map EvCloseBrowser (still_open tr1 tr) ++ tr) = S b /\
            browser_closed b (map EvCloseBrowser (still_open tr1 tr) ++ tr) = true).
  { intros evs Hevs tr. subst tr. unfold tr1.
    rewrite (still_open_one_launch (trace w) evs b eq_refl Hevs).
    assert (Hl : launches (evs ++ EvLaunch b :: EvRateLimit "tops_website" :: trace w) = S b).
    { unfold launches. rewrite List.filter_app, length_app.
      replace (List.filter is_launch evs) with (@nil event); [reflexivity|].
      symmetry. induction Hevs as [|e evs He _ IH]; [reflexivity|].
      cbn. rewrite He. exact IH. }
    destruct (browser_closed b (evs ++ EvLaunch b :: EvRateLimit "tops_website" :: trace w))
      eqn:E; cbn [map app].
    - split; [exact Hl|exact E].
    - split; [exact Hl|]. cbn. rewrite Nat.eqb_refl. reflexivity. }
  destruct (browser_closed b (EvLaunch b :: tr1)) eqn:Eb.
  { destruct (Hclosed [] ltac:(constructor)) as [Hl Hc]. cbn [fst snd trace].
    split; [exact Hl|]. split; [exact Hc|]. split; [discriminate|].
    intros e [= <-]. right. right. right. split; [reflexivity|exact Eb]. }
  destruct (nav_goto (nav_site on_url)) as [?|e0].
  2:{ destruct (Hclosed [EvNewPage b p] ltac:(repeat constructor)) as [Hl Hc].
      cbn [fst snd trace]. split; [exact Hl|]. split; [exact Hc|]. split; [discriminate|].
      intros e [= <-]. auto. }
  destruct (nav_carousel (nav_site on_url)) as [?|e0].
  2:{ destruct (Hclosed [EvGoto p on_url; EvNewPage b p] ltac:(repeat constructor)) as [Hl Hc].
      cbn [fst snd trace]. split; [exact Hl|]. split; [exact Hc|]. split; [discriminate|].
      intros e [= <-]. auto. }
  destruct (nav_hrefs (nav_site on_url)) as [links|e0].
  - destruct (Hclosed [EvCloseBrowser b; EvGoto p on_url; EvNewPage b p]
                ltac:(repeat constructor)) as [Hl Hc].
    cbn [fst snd trace]. split; [exact Hl|]. split; [exact Hc|].
    split; [intros ? [= <-]; reflexivity|discriminate].
  - destruct (Hclosed [EvGoto p on_url; EvNewPage b p] ltac:(repeat constructor)) as [Hl Hc].
    cbn [fst snd trace]. split; [exact Hl|]. split; [exact Hc|]. split; [discriminate|].
    intros e [= <-]. auto.
Qed.
